(** * Timed thread joining and the thread registry of threads-pthread.c

    A shallow embedding of [mono/metadata/threads-pthread.c]: the
    [ThreadInfo] handle, the timed join of P1003.1d figure B-6, the
    [threads] hash table and the [ves_icall_System_Threading_Thread_*]
    entry points, followed by the properties the specification states
    about them.

    The C code talks to the operating system (pthreads, [nanosleep],
    [time], the allocator).  Every such call is a primitive of a small
    monad over a [World]: the state of this file's statics and of the
    allocated handles, a log of the primitive calls in program order, and
    the answers the operating system is going to give. *)

From stdpp Require Import gmap strings list fin_maps.
From Stdlib Require Import ZArith Lia.

Open Scope Z_scope.

(** ** Data *)

(** [struct timespec]. *)
Record timespec := mkTimespec { tv_sec : Z; tv_nsec : Z }.

(** [ThreadInfo], lines 25-34.  Pointers and [pthread_t] are integers,
    [NULL] is [0].  [join_mutex] and [exit_cond] are operating-system
    objects living in the handle: their use is recorded in the log and
    they carry no field of their own here. *)
Record ThreadInfo := mkThreadInfo {
  id : Z;
  object : Z;
  start_routine : Z;
  arg : Z;
  status : Z;
  exiting : bool
}.

Inductive field := Fid | Fobject | Fstart_routine | Farg | Fstatus | Fexiting.

Definition TRUE : Z := 1.
Definition FALSE : Z := 0.
Definition NULL : Z := 0.
Definition ETIMEDOUT : Z := 110.

(** The block [g_new0] hands out: all bytes zero. *)
Definition zeroed : ThreadInfo :=
  {| id := 0; object := NULL; start_routine := NULL; arg := NULL;
     status := NULL; exiting := false |}.

Definition set_field (f : field) (v : Z) (ti : ThreadInfo) : ThreadInfo :=
  match f with
  | Fid => {| id := v; object := object ti; start_routine := start_routine ti;
              arg := arg ti; status := status ti; exiting := exiting ti |}
  | Fobject => {| id := id ti; object := v; start_routine := start_routine ti;
                  arg := arg ti; status := status ti; exiting := exiting ti |}
  | Fstart_routine => {| id := id ti; object := object ti; start_routine := v;
                         arg := arg ti; status := status ti; exiting := exiting ti |}
  | Farg => {| id := id ti; object := object ti; start_routine := start_routine ti;
               arg := v; status := status ti; exiting := exiting ti |}
  | Fstatus => {| id := id ti; object := object ti; start_routine := start_routine ti;
                  arg := arg ti; status := v; exiting := exiting ti |}
  | Fexiting => {| id := id ti; object := object ti; start_routine := start_routine ti;
                   arg := arg ti; status := status ti; exiting := negb (v =? 0) |}
  end.

(** What the primitives leave in the log. *)
Inductive event :=
| EvWarning (msg : string)
| EvMalloc (p : Z)
| EvFree (p : Z)
| EvMutexInit (p : Z)
| EvCondInit (p : Z)
| EvLock (p : Z)
| EvUnlock (p : Z)
| EvSignal (p : Z)
| EvCondWait (p : Z)
| EvCondTimedWait (p : Z) (abstime : timespec)
| EvWrite (p : Z) (f : field) (v : Z)
| EvCreate (p : Z)
| EvDetach (t : Z)
| EvOnce
| EvSetSpecific (v : Z)
| EvCall (fn : Z) (a : Z)
| EvPthreadExit
| EvNanosleep (req : timespec)
| EvYield.

Global Instance timespec_eq_dec : EqDecision timespec.
Proof. solve_decision. Defined.
Global Instance field_eq_dec : EqDecision field.
Proof. solve_decision. Defined.
Global Instance event_eq_dec : EqDecision event.
Proof. solve_decision. Defined.

(** One return of a condition wait: the code the wait returns, and the
    workers (handle address, exit status) that went through
    [timed_thread_exit] while the waiter had the mutex released. *)
Record wake := mkWake { wk_ret : Z; wk_exits : list (Z * Z) }.

(** The answers of the operating system and of the object model that do
    not change during a call. *)
Record OS := mkOS {
  os_self : Z;                     (* pthread_self() *)
  os_time : Z;                     (* time(NULL) *)
  os_malloc : Z;                   (* the block g_new0 returns next *)
  os_create : Z * Z;               (* pthread_create: result, new id *)
  os_nanosleep : Z * timespec;     (* nanosleep: result, *rem *)
  os_method_ptr : Z → Z;           (* the method_ptr field of a delegate *)
  os_run : Z → Z → option Z        (* a callable applied to its argument;
                                      None when it does not return *)
}.

Record World := mkWorld {
  heap : gmap Z ThreadInfo;        (* the allocated ThreadInfo blocks *)
  threads : option (gmap Z Z);     (* static GHashTable *threads: from the
                                      gint read through the key pointer
                                      to the handle *)
  main_thread : Z;                 (* static MonoObject *main_thread *)
  specific : Z;                    (* timed_thread_key of the running thread *)
  log : list event;
  wakes : list wake;               (* the returns of the coming waits *)
  os : OS
}.

Definition with_heap (h : gmap Z ThreadInfo) (w : World) : World :=
  {| heap := h; threads := threads w; main_thread := main_thread w;
     specific := specific w; log := log w; wakes := wakes w; os := os w |}.
Definition with_threads (t : option (gmap Z Z)) (w : World) : World :=
  {| heap := heap w; threads := t; main_thread := main_thread w;
     specific := specific w; log := log w; wakes := wakes w; os := os w |}.
Definition with_specific (v : Z) (w : World) : World :=
  {| heap := heap w; threads := threads w; main_thread := main_thread w;
     specific := v; log := log w; wakes := wakes w; os := os w |}.
Definition with_log (l : list event) (w : World) : World :=
  {| heap := heap w; threads := threads w; main_thread := main_thread w;
     specific := specific w; log := l; wakes := wakes w; os := os w |}.
Definition with_wakes (s : list wake) (w : World) : World :=
  {| heap := heap w; threads := threads w; main_thread := main_thread w;
     specific := specific w; log := log w; wakes := s; os := os w |}.

(** ** The monad *)

(** A call returns, stays blocked in a wait that is never woken up (or in
    a callable that never returns), ends the running thread through
    [pthread_exit], or runs into undefined behaviour. *)
Inductive outcome (A : Type) :=
| Returned (a : A) (w : World)
| Blocked (w : World)
| Exited (w : World)
| Aborted.
Arguments Returned {A} a w.
Arguments Blocked {A} w.
Arguments Exited {A} w.
Arguments Aborted {A}.

Definition M (A : Type) : Type := World → outcome A.

Global Instance M_ret : MRet M := λ A a w, Returned a w.
Global Instance M_bind : MBind M := λ A B f m w,
  match m w with
  | Returned a w' => f a w'
  | Blocked w' => Blocked w'
  | Exited w' => Exited w'
  | Aborted => Aborted
  end.

Definition get_world : M World := λ w, Returned w w.
Definition emit (e : event) : M unit :=
  λ w, Returned tt (with_log (log w ++ [e]) w).
Definition abort {A} : M A := λ _, Aborted.
Definition block {A} : M A := λ w, Blocked w.
Definition set_heap (h : gmap Z ThreadInfo) : M unit :=
  λ w, Returned tt (with_heap h w).
Definition set_threads (t : option (gmap Z Z)) : M unit :=
  λ w, Returned tt (with_threads t w).
Definition set_specific (v : Z) : M unit :=
  λ w, Returned tt (with_specific v w).

(** ** Primitives *)

(** Reading a handle through a pointer; a pointer to no allocated block
    is undefined behaviour. *)
Definition load (p : Z) : M ThreadInfo :=
  λ w, match heap w !! p with
       | Some ti => Returned ti w
       | None => Aborted
       end.

(** [p->f = v]. *)
Definition store (p : Z) (f : field) (v : Z) : M unit :=
  λ w, match heap w !! p with
       | Some ti =>
           Returned tt (with_log (log w ++ [EvWrite p f v])
                          (with_heap (<[p := set_field f v ti]> (heap w)) w))
       | None => Aborted
       end.

Definition g_warning (msg : string) : M unit := emit (EvWarning msg).

Definition g_new0 : M Z :=
  λ w, let p := os_malloc (os w) in
       Returned p (with_log (log w ++ [EvMalloc p])
                     (with_heap (<[p := zeroed]> (heap w)) w)).

Definition g_free (p : Z) : M unit :=
  λ w, match heap w !! p with
       | Some _ =>
           Returned tt (with_log (log w ++ [EvFree p])
                          (with_heap (delete p (heap w)) w))
       | None => Aborted
       end.

Definition pthread_self : M Z := λ w, Returned (os_self (os w)) w.
Definition time : M Z := λ w, Returned (os_time (os w)) w.

Definition pthread_mutex_init (p : Z) : M unit := emit (EvMutexInit p).
Definition pthread_cond_init (p : Z) : M unit := emit (EvCondInit p).
Definition pthread_mutex_lock (p : Z) : M unit := emit (EvLock p).
Definition pthread_mutex_unlock (p : Z) : M unit := emit (EvUnlock p).
Definition pthread_cond_signal (p : Z) : M unit := emit (EvSignal p).

(** What a worker leaving through [timed_thread_exit] writes into its
    handle (lines 64-65). *)
Definition announce (st : Z) (ti : ThreadInfo) : ThreadInfo :=
  set_field Fexiting TRUE (set_field Fstatus st ti).

Definition apply_exits (xs : list (Z * Z)) (h : gmap Z ThreadInfo)
  : gmap Z ThreadInfo :=
  foldl (λ h x, alter (announce x.2) x.1 h) h xs.

(** Both condition waits release the mutex, let the other threads run
    and return with the mutex held again; with no return left the caller
    waits for ever. *)
Definition wait_return : M Z :=
  λ w, match wakes w with
       | [] => Blocked w
       | wk :: s =>
           Returned (wk_ret wk)
             (with_wakes s (with_heap (apply_exits (wk_exits wk) (heap w)) w))
       end.

Definition pthread_cond_wait (p : Z) : M Z :=
  emit (EvCondWait p);; wait_return.
Definition pthread_cond_timedwait (p : Z) (abstime : timespec) : M Z :=
  emit (EvCondTimedWait p abstime);; wait_return.

(** [pthread_create] on [&thread->id] with [timed_thread_start_routine]:
    on success the new identity is stored through the first argument. *)
Definition pthread_create (thread : Z) : M Z :=
  emit (EvCreate thread);;
  w ← get_world;
  if (os_create (os w)).1 =? 0 then
    ti ← load thread;
    set_heap (<[thread := set_field Fid (os_create (os w)).2 ti]> (heap w));;
    mret (os_create (os w)).1
  else mret (os_create (os w)).1.

Definition pthread_detach (t : Z) : M unit := emit (EvDetach t).
Definition pthread_once : M unit := emit EvOnce.
Definition pthread_setspecific (v : Z) : M unit :=
  emit (EvSetSpecific v);; set_specific v.
Definition pthread_getspecific : M Z := λ w, Returned (specific w) w.
Definition pthread_exit {A} : M A :=
  λ w, Exited (with_log (log w ++ [EvPthreadExit]) w).

(** Calling through a function pointer of the object model. *)
Definition call (fn a : Z) : M Z :=
  emit (EvCall fn a);;
  w ← get_world;
  match os_run (os w) fn a with
  | Some r => mret r
  | None => block
  end.

Definition nanosleep (req : timespec) : M (Z * timespec) :=
  emit (EvNanosleep req);;
  w ← get_world;
  mret (os_nanosleep (os w)).

Definition sched_yield : M unit := emit EvYield.

(** [div(num, 1000)] of the C library: the quotient is truncated towards
    zero. *)
Record div_t := mkDiv { quot : Z; rem : Z }.
Definition div (num den : Z) : div_t :=
  {| quot := Z.quot num den; rem := Z.rem num den |}.

(** Conversion to [gint32]. *)
Definition to_gint32 (z : Z) : Z := (z + 2 ^ 31) `mod` 2 ^ 32 - 2 ^ 31.

(** ** The timed join, lines 47-151 *)

Definition timed_thread_exit (st : Z) : M unit :=
  spec ← pthread_getspecific;
  if spec =? NULL then
    pthread_exit
  else
    let thread := spec in
    pthread_mutex_lock thread;;
    store thread Fstatus st;;
    store thread Fexiting TRUE;;
    pthread_cond_signal thread;;
    pthread_mutex_unlock thread;;
    pthread_exit.

Definition timed_thread_start_routine (args : Z) : M Z :=
  let thread := args in
  pthread_once;;
  pthread_setspecific thread;;
  ti ← load thread;
  r ← call (start_routine ti) (arg ti);
  timed_thread_exit r;;
  mret NULL.

(** The result and, on success, what is stored through [threadp]. *)
Definition timed_thread_create (attr start_func argument : Z)
  : M (Z * option Z) :=
  thread ← g_new0;
  pthread_mutex_init thread;;
  pthread_cond_init thread;;
  store thread Fstart_routine start_func;;
  store thread Farg argument;;
  store thread Fstatus NULL;;
  store thread Fexiting FALSE;;
  result ← pthread_create thread;
  if negb (result =? 0) then
    g_free thread;;
    mret (result, None)
  else
    ti ← load thread;
    pthread_detach (id ti);;
    mret (0, Some thread).

(** The [while] loop of lines 133-142.  Every turn takes one return of
    the wait from the world, so one more turn than there are returns
    left is enough; with none left the wait blocks. *)
Fixpoint join_wait (turns : nat) (thread : Z) (timeout : option timespec)
    (result : Z) : M Z :=
  match turns with
  | O => block
  | S n =>
      ti ← load thread;
      if (result =? 0) && negb (exiting ti) then
        r ← match timeout with
            | None => pthread_cond_wait thread
            | Some abstime => pthread_cond_timedwait thread abstime
            end;
        join_wait n thread timeout r
      else mret result
  end.

(** [want_status] says whether [status] is a pointer other than [NULL];
    the second component is what is stored through it. *)
Definition timed_thread_join (thread : Z) (timeout : option timespec)
    (want_status : bool) : M (Z * option Z) :=
  pthread_mutex_lock thread;;
  w ← get_world;
  result ← join_wait (S (length (wakes w))) thread timeout 0;
  pthread_mutex_unlock thread;;
  ti ← load thread;
  if (result =? 0) && exiting ti then
    mret (result, if want_status then Some (status ti) else None)
  else mret (result, None).

(** ** The registry and the entry points, lines 153-406 *)

(** The table is created with [g_int_hash] and [g_int_equal] (line 189),
    which read a [gint] through the key pointer.  The keys are pointers
    to identities, so two identities are the same key when they agree in
    their low 32 bits: the whole identity where [pthread_t] is as wide
    as a [gint], its lower half where it is twice as wide. *)
Definition g_int (key : Z) : Z := to_gint32 key.

(** [g_hash_table_lookup (threads, &tid)] guarded by [threads != NULL]. *)
Definition lookup_thread (tid : Z) : M Z :=
  w ← get_world;
  match threads w with
  | Some t => mret (default NULL (t !! g_int tid))
  | None => mret NULL
  end.

(** [g_hash_table_insert (threads, &thread->id, thread)]: the value of
    an entry with an equal key is replaced. *)
Definition g_hash_table_insert (thread : Z) : M unit :=
  ti ← load thread;
  w ← get_world;
  match threads w with
  | Some t => set_threads (Some (<[g_int (id ti) := thread]> t))
  | None => abort
  end.

(** [g_hash_table_remove (threads, &thread->id)]. *)
Definition g_hash_table_remove (thread : Z) : M unit :=
  ti ← load thread;
  w ← get_world;
  match threads w with
  | Some t => set_threads (Some (delete (g_int (id ti)) t))
  | None => abort
  end.

Definition ves_icall_System_Threading_Thread_Start_internal (this start : Z)
  : M Z :=
  w ← get_world;
  let start_func := os_method_ptr (os w) start in
  if start_func =? NULL then
    g_warning "Can't locate start method!";;
    mret 0
  else
    r ← timed_thread_create NULL start_func NULL;
    if negb (r.1 =? 0) then
      g_warning "pthread_create error: %s";;
      mret 0
    else
      match r.2 with
      | None => abort
      | Some thread =>
          w ← get_world;
          (if threads w is None then set_threads (Some ∅) else mret tt);;
          store thread Fobject this;;
          g_hash_table_insert thread;;
          ti ← load thread;
          mret (id ti)
      end.

Definition ves_icall_System_Threading_Thread_Sleep_internal (ms : Z) : M Z :=
  let divvy := div ms 1000 in
  let req := {| tv_sec := quot divvy; tv_nsec := rem divvy * 1000 |} in
  r ← nanosleep req;
  if r.1 <? 0 then
    let rems := to_gint32 (tv_sec r.2 * 1000 + Z.quot (tv_nsec r.2) 1000) in
    mret rems
  else mret 0.

Definition ves_icall_System_Threading_Thread_Schedule_internal : M unit :=
  sched_yield.

Definition ves_icall_System_Threading_Thread_CurrentThread_internal : M Z :=
  tid ← pthread_self;
  thread_info ← lookup_thread tid;
  if thread_info =? NULL then
    w ← get_world;
    mret (main_thread w)
  else
    ti ← load thread_info;
    mret (object ti).

Definition delete_thread (thread : Z) : M unit :=
  w ← get_world;
  if threads w is None then abort
  else if thread =? NULL then abort
  else
    g_hash_table_remove thread;;
    g_free thread.

Definition ves_icall_System_Threading_Thread_Join_internal
    (this ms tid : Z) : M bool :=
  myid ← pthread_self;
  if myid =? tid then
    g_warning "Can't join my own thread!";;
    mret false
  else
    thread ← lookup_thread tid;
    if thread =? NULL then
      g_warning "Can't find thread id %ld";;
      mret false
    else if ms =? 0 then
      r ← timed_thread_join thread None false;
      if r.1 =? 0 then
        delete_thread thread;;
        mret true
      else
        g_warning "Join error: %s";;
        mret false
    else
      let divvy := div ms 1000 in
      now ← time;
      let timeout := {| tv_sec := now + quot divvy;
                        tv_nsec := rem divvy * 1000 |} in
      r ← timed_thread_join thread (Some timeout) false;
      if r.1 =? 0 then
        delete_thread thread;;
        mret true
      else
        (if negb (r.1 =? ETIMEDOUT) then g_warning "Timed join error: %s"
         else mret tt);;
        mret false.

Definition join_all_threads (key value : Z) : M unit :=
  let thread_info := value in
  timed_thread_join thread_info None false;;
  mret tt.

Definition free_all_threadinfo (key value : Z) : M bool :=
  g_free value;;
  mret true.

(** [g_hash_table_foreach]: the callback on every entry, in the order the
    table hands them out. *)
Fixpoint foreach (func : Z → Z → M unit) (entries : list (Z * Z)) : M unit :=
  match entries with
  | [] => mret tt
  | (k, v) :: rest => func k v;; foreach func rest
  end.

Definition g_hash_table_foreach (func : Z → Z → M unit) : M unit :=
  w ← get_world;
  match threads w with
  | Some t => foreach func (map_to_list t)
  | None => abort
  end.

(** [g_hash_table_foreach_remove]: an entry goes when the callback
    answers [TRUE]. *)
Fixpoint foreach_remove (func : Z → Z → M bool) (entries : list (Z * Z))
  : M unit :=
  match entries with
  | [] => mret tt
  | (k, v) :: rest =>
      b ← func k v;
      (if b : bool then
         w ← get_world;
         set_threads (delete k <$> threads w)
       else mret tt);;
      foreach_remove func rest
  end.

Definition g_hash_table_foreach_remove (func : Z → Z → M bool) : M unit :=
  w ← get_world;
  match threads w with
  | Some t => foreach_remove func (map_to_list t)
  | None => abort
  end.

Definition mono_thread_cleanup : M unit :=
  w ← get_world;
  if threads w is None then mret tt
  else
    g_hash_table_foreach join_all_threads;;
    g_hash_table_foreach_remove free_all_threadinfo;;
    (* g_hash_table_destroy (threads) *)
    set_threads None.

(** ** Vocabulary of the statements *)

(** The log entry of one turn of the join loop. *)
Definition wait_event (thread : Z) (timeout : option timespec) : event :=
  match timeout with
  | None => EvCondWait thread
  | Some abstime => EvCondTimedWait thread abstime
  end.

(** The handles after a run of returns of the wait. *)
Definition apply_wakes (s : list wake) (h : gmap Z ThreadInfo)
  : gmap Z ThreadInfo :=
  foldl (λ h wk, apply_exits (wk_exits wk) h) h s.

(** A return of the wait that reports success while the worker of
    [thread] is still running: a spurious wake-up, or a signal meant for
    somebody else. *)
Definition quiet (thread : Z) (wk : wake) : Prop :=
  wk_ret wk = 0 ∧ thread ∉ (wk_exits wk).*1.

(** What other threads may do to a handle while a caller is blocked. *)
Definition grows (ti ti' : ThreadInfo) : Prop :=
  id ti' = id ti ∧ object ti' = object ti ∧
  start_routine ti' = start_routine ti ∧ arg ti' = arg ti ∧
  (exiting ti = true → exiting ti' = true).

(** The table holds an entry for [tid], found as [g_int_equal] finds it,
    its value is the allocated handle [thread], and [tid] is the
    handle's own [id] (the table is keyed through [&thread->id]). *)
Definition registered (w : World) (tid thread : Z) (ti : ThreadInfo) : Prop :=
  ∃ t, threads w = Some t ∧ t !! g_int tid = Some thread ∧ thread ≠ NULL ∧
       heap w !! thread = Some ti ∧ id ti = tid.

(** The world once the worker of [thread] has gone through
    [timed_thread_exit] with status [st]. *)
Definition worker_exit (thread st : Z) (w : World) : World :=
  with_heap (alter (announce st) thread (heap w)) w.

(** The deadline lines 333-337 build from [time(NULL)] and [ms]. *)
Definition join_deadline (now ms : Z) : timespec :=
  {| tv_sec := now + quot (div ms 1000); tv_nsec := rem (div ms 1000) * 1000 |}.

(** A small world to run the statements on: one worker, started by
    [Start_internal] from the delegate at 77, its handle at 4096. *)
Definition os_demo : OS :=
  {| os_self := 1024; os_time := 100; os_malloc := 4096;
     os_create := (0, 2051); os_nanosleep := (0, mkTimespec 0 0);
     os_method_ptr := λ p, if p =? 77 then 9000 else NULL;
     os_run := λ _ _, Some 5 |}.

Definition handle_demo : ThreadInfo :=
  {| id := 2051; object := 5; start_routine := 9000; arg := NULL;
     status := NULL; exiting := false |}.

Definition w_idle : World :=
  {| heap := ∅; threads := None; main_thread := 1; specific := NULL;
     log := []; wakes := []; os := os_demo |}.

Definition w_running (s : list wake) : World :=
  {| heap := {[4096 := handle_demo]}; threads := Some {[2051 := 4096]};
     main_thread := 1; specific := NULL; log := []; wakes := s;
     os := os_demo |}.

(** Joining the same handle several times in a row, each time with its
    own deadline and status pointer. *)
Fixpoint join_each (thread : Z) (reqs : list (option timespec * bool))
  : M (list (Z * option Z)) :=
  match reqs with
  | [] => mret []
  | req :: rest =>
      r ← timed_thread_join thread req.1 req.2;
      rs ← join_each thread rest;
      mret (r :: rs)
  end.

(** A point in time, and a span of milliseconds, in nanoseconds. *)
Definition timespec_ns (ts : timespec) : Z := tv_sec ts * 10 ^ 9 + tv_nsec ts.
Definition ms_ns (ms : Z) : Z := ms * 10 ^ 6.

(** A world in which [nanosleep] is going to answer [answer]. *)
Definition w_sleep (answer : Z * timespec) : World :=
  {| heap := ∅; threads := None; main_thread := 1; specific := NULL;
     log := []; wakes := [];
     os := {| os_self := 1024; os_time := 100; os_malloc := 4096;
              os_create := (0, 2051); os_nanosleep := answer;
              os_method_ptr := λ _, NULL; os_run := λ _ _, None |} |}.

(** The handle [timed_thread_create] has built when [pthread_create]
    returns 0, and what it has logged up to that call. *)
Definition created (tid start_func argument : Z) : ThreadInfo :=
  {| id := tid; object := NULL; start_routine := start_func; arg := argument;
     status := NULL; exiting := false |}.

Definition create_log (p start_func argument : Z) : list event :=
  [EvMalloc p; EvMutexInit p; EvCondInit p;
   EvWrite p Fstart_routine start_func; EvWrite p Farg argument;
   EvWrite p Fstatus NULL; EvWrite p Fexiting FALSE; EvCreate p].

(** What [timed_thread_exit] logs for a worker that has a handle. *)
Definition exit_log (thread st : Z) : list event :=
  [EvLock thread; EvWrite thread Fstatus st; EvWrite thread Fexiting TRUE;
   EvSignal thread; EvUnlock thread; EvPthreadExit].

Definition is_call (e : event) : bool :=
  match e with EvCall _ _ => true | _ => false end.

(** Handles stay allocated and only grow while a caller is blocked. *)
Definition heap_grows (h h' : gmap Z ThreadInfo) : Prop :=
  ∀ p, match h !! p with
       | Some ti => ∃ ti', h' !! p = Some ti' ∧ grows ti ti'
       | None => h' !! p = None
       end.

(** A wait that returns 0, as [pthread_cond_wait] does on a mutex the
    caller holds. *)
Definition succeeds (wk : wake) : Prop := wk_ret wk = 0.

(** The log entries of a join without a deadline. *)
Definition is_untimed_join_event (e : event) : bool :=
  match e with
  | EvLock _ | EvUnlock _ | EvCondWait _ => true
  | _ => false
  end.

(** Whether the worker of the handle [v] has announced its exit. *)
Definition is_exited (h : gmap Z ThreadInfo) (v : Z) : bool :=
  match h !! v with
  | Some ti => exiting ti
  | None => false
  end.

Definition is_cond_wait (e : event) : bool :=
  match e with EvCondWait _ => true | _ => false end.

(** The number of untimed waits in a log. *)
Definition waits (d : list event) : nat := length (List.filter is_cond_wait d).

Definition free_all (vs : list Z) (h : gmap Z ThreadInfo) : gmap Z ThreadInfo :=
  foldl (λ h v, delete v h) h vs.

(** Every entry of the table leads to an allocated handle whose [id]
    reads as the key: what [Start_internal] inserts. *)
Definition registry_wf (w : World) : Prop :=
  ∀ t k v, threads w = Some t → t !! k = Some v →
           ∃ ti, heap w !! v = Some ti ∧ g_int (id ti) = k.

(** *** The starting thread and the worker side by side

    [Start_internal] and the trampoline run in two threads.  A schedule
    says whose event comes next; when it runs out the starting thread
    goes first. *)
Inductive who := Starter | Worker.

Fixpoint interleave (sched : list who) (st wk : list event)
  : list (who * event) :=
  match sched with
  | [] => (pair Starter <$> st) ++ (pair Worker <$> wk)
  | Starter :: sched' =>
      match st with
      | e :: st' => (Starter, e) :: interleave sched' st' wk
      | [] => interleave sched' [] wk
      end
  | Worker :: sched' =>
      match wk with
      | e :: wk' => (Worker, e) :: interleave sched' st wk'
      | [] => interleave sched' st []
      end
  end.

(** The worker does nothing before [pthread_create] has been called on
    its handle. *)
Fixpoint created_first (p : Z) (tr : list (who * event)) : bool :=
  match tr with
  | [] => true
  | (Worker, _) :: _ => false
  | (Starter, EvCreate q) :: tr' =>
      if decide (q = p) then true else created_first p tr'
  | _ :: tr' => created_first p tr'
  end.

(** Not a write to the handle [p], or a write to [status] or [exiting]. *)
Definition exit_write (p : Z) (e : event) : bool :=
  match e with
  | EvWrite q f _ =>
      if decide (q = p) then
        match f with Fstatus | Fexiting => true | _ => false end
      else true
  | _ => true
  end.

(** From the call of the callable on, nobody writes a field of the
    handle [p] other than [status] and [exiting]. *)
Fixpoint only_exit_writes_after_call (p : Z) (tr : list (who * event)) : bool :=
  match tr with
  | [] => true
  | (Worker, EvCall _ _) :: tr' => forallb (λ x, exit_write p x.2) tr'
  | _ :: tr' => only_exit_writes_after_call p tr'
  end.

(** The same world seen by the thread whose identity is [tid]. *)
Definition with_self (tid : Z) (w : World) : World :=
  {| heap := heap w; threads := threads w; main_thread := main_thread w;
     specific := specific w; log := log w; wakes := wakes w;
     os := {| os_self := tid; os_time := os_time (os w);
              os_malloc := os_malloc (os w); os_create := os_create (os w);
              os_nanosleep := os_nanosleep (os w);
              os_method_ptr := os_method_ptr (os w);
              os_run := os_run (os w) |} |}.

(** What [g_hash_table_lookup] finds for an identity: identities that
    agree in their low 32 bits find the same entry. *)
Definition handle_of (w : World) (tid : Z) : option Z :=
  t ← threads w; t !! g_int tid.

Definition handle_other : ThreadInfo :=
  {| id := 3075; object := 6; start_routine := 9100; arg := NULL;
     status := NULL; exiting := false |}.

(** One worker, 3075 at 8192. *)
Definition w_other : World :=
  {| heap := {[8192 := handle_other]}; threads := Some {[3075 := 8192]};
     main_thread := 1; specific := NULL; log := []; wakes := [];
     os := os_demo |}.

(** Two workers, 2051 at 4096 and 3075 at 8192. *)
Definition w_two (s : list wake) : World :=
  {| heap := {[4096 := handle_demo; 8192 := handle_other]};
     threads := Some {[2051 := 4096; 3075 := 8192]};
     main_thread := 1; specific := NULL; log := []; wakes := s;
     os := os_demo |}.

(** The identity 2051 still registered, to a handle at 8192, when the
    operating system hands it out again. *)
Definition w_reused : World :=
  {| heap := {[8192 := handle_demo]}; threads := Some {[2051 := 8192]};
     main_thread := 1; specific := NULL; log := []; wakes := [];
     os := os_demo |}.

(** The worker of [w_running] exits during the second wait; or the
    second wait times out. *)
Definition w_exits_later : World :=
  w_running [mkWake 0 []; mkWake 0 [(4096, 42)]].
Definition w_times_out : World :=
  w_running [mkWake 0 []; mkWake ETIMEDOUT []].

(** Unfolding the primitives on a world given by its fields. *)
Ltac run :=
  cbv [mbind M_bind mret M_ret get_world emit abort block set_heap set_threads
       set_specific load store g_warning g_new0 g_free pthread_self time
       pthread_mutex_init pthread_cond_init pthread_mutex_lock
       pthread_mutex_unlock pthread_cond_signal wait_return pthread_cond_wait
       pthread_cond_timedwait pthread_create pthread_detach pthread_once
       pthread_setspecific pthread_getspecific pthread_exit call nanosleep
       sched_yield lookup_thread g_hash_table_insert g_hash_table_remove
       with_heap with_threads with_specific with_log with_wakes
       heap threads main_thread specific log wakes os fst snd].

(** * Properties *)

(** ** Stepping through the monad *)

Lemma load_bind {B} (k : ThreadInfo → M B) w p ti :
  heap w !! p = Some ti → (load p ≫= k) w = k ti w.
Proof. intros Hh. cbv [mbind M_bind load]. by rewrite Hh. Qed.

(** ** What a blocked caller sees of the handles *)

Lemma announce_grows st ti :
  grows ti (announce st ti) ∧ exiting (announce st ti) = true.
Proof. destruct ti. by repeat split. Qed.

Lemma grows_refl ti : grows ti ti.
Proof. by repeat split. Qed.

Lemma grows_trans a b c : grows a b → grows b c → grows a c.
Proof.
  intros (?&?&?&?&Hab) (?&?&?&?&Hbc). repeat split; try congruence. auto.
Qed.

Lemma apply_exits_lookup_ne xs h (p : Z) :
  p ∉ xs.*1 → apply_exits xs h !! p = h !! p.
Proof.
  revert h. induction xs as [|[q st] xs IH]; intros h Hp; [done|].
  cbn in Hp. apply not_elem_of_cons in Hp as [Hne Hp].
  unfold apply_exits in *. cbn. rewrite IH by done.
  by apply lookup_alter_ne.
Qed.

Lemma apply_exits_lookup xs : ∀ h (p : Z) ti,
  h !! p = Some ti →
  ∃ ti', apply_exits xs h !! p = Some ti' ∧ grows ti ti' ∧
         (p ∈ xs.*1 → exiting ti' = true).
Proof.
  induction xs as [|[q st] xs IH]; intros h p ti Hh.
  - exists ti. split_and!; [done|apply grows_refl|by intros ?%elem_of_nil].
  - unfold apply_exits in *. cbn [foldl fst snd].
    destruct (decide (q = p)) as [->|Hne].
    + destruct (IH (alter (announce st) p h) p (announce st ti)) as (ti'&H1&H2&H3).
      { by rewrite lookup_alter_eq, Hh. }
      exists ti'. split_and!; [done| |].
      * eapply grows_trans; [apply announce_grows|done].
      * intros _. destruct H2 as (_&_&_&_&H2). apply H2, announce_grows.
    + destruct (IH (alter (announce st) q h) p ti) as (ti'&H1&H2&H3).
      { by rewrite lookup_alter_ne. }
      exists ti'. split_and!; [done..|].
      cbn. intros [?|?]%elem_of_cons; [done|auto].
Qed.

Lemma apply_exits_lookup_None xs : ∀ h (p : Z),
  h !! p = None → apply_exits xs h !! p = None.
Proof.
  induction xs as [|[q st] xs IH]; intros h p Hh; [done|].
  unfold apply_exits in *. cbn [foldl fst snd]. apply IH.
  rewrite lookup_alter. case_decide; subst; by rewrite ?Hh.
Qed.

Lemma apply_wakes_quiet s h (p : Z) :
  Forall (quiet p) s → apply_wakes s h !! p = h !! p.
Proof.
  revert h. induction s as [|wk s IH]; intros h Hq; [done|].
  inversion Hq as [|?? [_ Hwk] Hs]; subst.
  unfold apply_wakes in *. cbn. rewrite IH by done.
  by apply apply_exits_lookup_ne.
Qed.

(** ** The join loop *)

(** Quiet returns keep the loop turning. *)
Lemma join_wait_quiet pre : ∀ h t m sp l rest o turns thread timeout ti,
  h !! thread = Some ti → exiting ti = false → Forall (quiet thread) pre →
  join_wait (length pre + turns) thread timeout 0
    (mkWorld h t m sp l (pre ++ rest) o)
  = join_wait turns thread timeout 0
      (mkWorld (apply_wakes pre h) t m sp
         (l ++ replicate (length pre) (wait_event thread timeout)) rest o).
Proof.
  induction pre as [|wk pre IH];
    intros h t m sp l rest o turns thread timeout ti Hh He Hq.
  - cbn. by rewrite app_nil_r.
  - inversion Hq as [|?? [Hret Hwk] Hpre]; subst.
    cbn [length Nat.add join_wait app].
    erewrite load_bind by exact Hh. rewrite He. cbn [Z.eqb andb negb].
    destruct timeout as [abstime|]; run; rewrite Hret;
      (erewrite IH; [|by rewrite apply_exits_lookup_ne|done|done]);
      cbn [replicate wait_event]; rewrite <- app_assoc; reflexivity.
Qed.

(** With nothing but quiet returns the caller is still waiting when the
    returns run out. *)
Lemma timed_join_blocked pre h t m sp l o thread timeout want ti :
  h !! thread = Some ti → exiting ti = false → Forall (quiet thread) pre →
  timed_thread_join thread timeout want (mkWorld h t m sp l pre o)
  = Blocked (mkWorld (apply_wakes pre h) t m sp
      (l ++ EvLock thread ::
         replicate (S (length pre)) (wait_event thread timeout))
      [] o).
Proof.
  intros Hh He Hq.
  cbv [timed_thread_join pthread_mutex_lock emit get_world mbind M_bind with_log
       heap threads main_thread specific log wakes os].
  replace (S (length pre)) with (length pre + 1)%nat by lia.
  rewrite <- (app_nil_r pre) at 2.
  erewrite join_wait_quiet by done.
  cbn [join_wait]. erewrite load_bind by (cbn; by rewrite apply_wakes_quiet).
  rewrite He. cbn [Z.eqb andb negb].
  rewrite replicate_add, <- app_assoc. cbn [app replicate].
  destruct timeout;
    cbv [pthread_cond_timedwait pthread_cond_wait emit wait_return mbind M_bind
         with_log heap threads main_thread specific log wakes os wait_event];
    by rewrite <- app_assoc.
Qed.

(** The return that ends the loop: a failure of the wait, or the exit of
    the worker. *)
Lemma timed_join_last pre wk rest h t m sp l o thread timeout want ti :
  h !! thread = Some ti → exiting ti = false → Forall (quiet thread) pre →
  wk_ret wk ≠ 0 ∨ thread ∈ (wk_exits wk).*1 →
  ∃ ti', apply_exits (wk_exits wk) (apply_wakes pre h) !! thread = Some ti' ∧
         grows ti ti' ∧
         (thread ∈ (wk_exits wk).*1 → exiting ti' = true) ∧
         timed_thread_join thread timeout want
           (mkWorld h t m sp l (pre ++ wk :: rest) o)
         = Returned (wk_ret wk,
                     if (wk_ret wk =? 0) && want then Some (status ti') else None)
             (mkWorld (apply_exits (wk_exits wk) (apply_wakes pre h)) t m sp
                (l ++ EvLock thread ::
                   replicate (S (length pre)) (wait_event thread timeout)
                   ++ [EvUnlock thread])
                rest o).
Proof.
  intros Hh He Hq Hwk.
  destruct (apply_exits_lookup (wk_exits wk) (apply_wakes pre h) thread ti)
    as (ti'&Hti'&Hg&Hex); [by rewrite apply_wakes_quiet|].
  exists ti'. split_and!; [done..|].
  cbv [timed_thread_join pthread_mutex_lock emit get_world mbind M_bind with_log
       heap threads main_thread specific log wakes os].
  rewrite length_app. cbn [length].
  replace (S (length pre + S (length rest)))
    with (length pre + S (S (length rest)))%nat by lia.
  erewrite join_wait_quiet by done.
  cbn [join_wait]. erewrite load_bind by (cbn; by rewrite apply_wakes_quiet).
  rewrite He. cbn [Z.eqb andb negb].
  assert (Hend : (wk_ret wk =? 0) && negb (exiting ti') = false).
  { destruct Hwk as [Hne|Hin].
    - apply Z.eqb_neq in Hne. by rewrite Hne.
    - rewrite Hex by done. by rewrite andb_false_r. }
  assert (Hout : (wk_ret wk =? 0) && exiting ti' = (wk_ret wk =? 0)).
  { destruct (wk_ret wk =? 0) eqn:E; [|done]. cbn.
    apply andb_false_iff in Hend as [?|Hn]; [done|]. by destruct (exiting ti'). }
  destruct timeout as [abstime|];
    cbv [pthread_cond_timedwait pthread_cond_wait emit wait_return mbind M_bind
         with_log with_wakes with_heap heap threads main_thread specific log
         wakes os load mret M_ret pthread_mutex_unlock];
    rewrite Hti', Hend, Hti', Hout;
    rewrite replicate_S_end, <- !app_assoc; cbn [app];
    by destruct (wk_ret wk =? 0), want.
Qed.

(** The number of turns granted to the loop does not matter once it
    exceeds the number of returns left. *)
Lemma join_wait_turns n : ∀ n' thread timeout r w,
  (length (wakes w) < n)%nat → (length (wakes w) < n')%nat →
  join_wait n thread timeout r w = join_wait n' thread timeout r w.
Proof.
  induction n as [|n IH]; intros n' thread timeout r w Hn Hn'; [lia|].
  destruct n' as [|n']; [lia|].
  destruct w as [h t m sp l s o]. cbn [wakes] in *.
  cbn [join_wait]. cbv [mbind M_bind load heap].
  destruct (h !! thread) as [ti|]; [|done].
  destruct ((r =? 0) && negb (exiting ti)); [|done].
  destruct s as [|wk s].
  - by destruct timeout.
  - destruct timeout;
      cbv [pthread_cond_timedwait pthread_cond_wait emit wait_return mbind
           M_bind with_log with_wakes with_heap heap threads main_thread
           specific log wakes os];
      apply IH; cbn in *; lia.
Qed.

(** A handle whose worker has exited is joined without a wait. *)
Lemma timed_join_exited w thread timeout want ti :
  heap w !! thread = Some ti → exiting ti = true →
  timed_thread_join thread timeout want w
  = Returned (0, if want then Some (status ti) else None)
      (with_log (log w ++ [EvLock thread; EvUnlock thread]) w).
Proof.
  destruct w as [h t m sp l s o]. cbn [heap]. intros Hh He.
  unfold timed_thread_join. run. cbn [join_wait]. run.
  rewrite Hh. cbn. rewrite He. cbn. rewrite Hh, He. cbn.
  by rewrite <- app_assoc.
Qed.

Lemma delete_thread_found h t m sp l s o thread ti :
  thread ≠ NULL → h !! thread = Some ti →
  delete_thread thread (mkWorld h (Some t) m sp l s o)
  = Returned tt (mkWorld (delete thread h) (Some (delete (g_int (id ti)) t))
                   m sp (l ++ [EvFree thread]) s o).
Proof.
  intros Hn Hh. unfold delete_thread. run.
  apply Z.eqb_neq in Hn. rewrite Hn, Hh. cbn. by rewrite Hh.
Qed.

(** ** Joining by identity *)

(** Past the two guards of lines 294-314 *)
Lemma Join_found w this ms tid thread ti :
  registered w tid thread ti → os_self (os w) ≠ tid →
  ves_icall_System_Threading_Thread_Join_internal this ms tid w
  = (if ms =? 0 then
      r ← timed_thread_join thread None false;
      if r.1 =? 0 then
        delete_thread thread;;
        mret true
      else
        g_warning "Join error: %s";;
        mret false
    else
      let divvy := div ms 1000 in
      now ← time;
      let timeout := {| tv_sec := now + quot divvy;
                        tv_nsec := rem divvy * 1000 |} in
      r ← timed_thread_join thread (Some timeout) false;
      if r.1 =? 0 then
        delete_thread thread;;
        mret true
      else
        (if negb (r.1 =? ETIMEDOUT) then g_warning "Timed join error: %s"
         else mret tt);;
        mret false) w.
Proof.
  intros (t&Ht&Hl&Hn&Hh&Hid) Hself.
  destruct w as [h t' m sp l s o]. cbn in Ht, Hh, Hself. subst t'.
  unfold ves_icall_System_Threading_Thread_Join_internal.
  cbv [mbind M_bind pthread_self lookup_thread get_world mret M_ret os threads].
  apply Z.eqb_neq in Hself, Hn. rewrite Hself, Hl. cbv [from_option Datatypes.id]. by rewrite Hn.
Qed.

(** Joining a registered worker that has exited: no wait, entry removed. *)
Lemma Join_exited w this ms tid thread ti :
  registered w tid thread ti → os_self (os w) ≠ tid → exiting ti = true →
  ∃ w', ves_icall_System_Threading_Thread_Join_internal this ms tid w
          = Returned true w' ∧
        threads w' = delete (g_int tid) <$> threads w ∧
        heap w' = delete thread (heap w) ∧
        wakes w' = wakes w ∧
        log w' = log w ++ [EvLock thread; EvUnlock thread; EvFree thread].
Proof.
  intros Hreg Hself He.
  rewrite (Join_found _ _ _ _ _ _ Hreg Hself).
  destruct Hreg as (t&Ht&Hl&Hn&Hh&Hid).
  destruct w as [h t' m sp l s o]. cbn in Ht, Hh |- *. subst t'.
  eexists.
  destruct (ms =? 0); cbv [mbind M_bind time]; cbn [os];
    (erewrite timed_join_exited by done); cbn [fst Z.eqb];
    cbv [with_log heap threads main_thread specific log wakes os];
    (erewrite delete_thread_found by done); cbv [mret M_ret];
    (split; [done|]); cbn; rewrite Hid, <- !app_assoc; done.
Qed.

(** C1.  A join with [ms = 0] on a registered identity, other than the
    caller's own, passes no deadline to the wait.  While the worker is
    still running the caller stays blocked however many times the untimed
    wait returns; the return that carries the worker's exit makes the
    call return [TRUE], with the entry removed and the handle freed; and
    when the worker has exited before the call, the call returns [TRUE]
    without a wait. *)
Theorem join_zero_waits_until_exit w this tid thread ti pre :
  registered w tid thread ti → os_self (os w) ≠ tid →
  Forall (quiet thread) pre →
  (exiting ti = false → wakes w = pre →
   ∃ w', ves_icall_System_Threading_Thread_Join_internal this 0 tid w
           = Blocked w' ∧
         log w' = log w ++ EvLock thread ::
                    replicate (S (length pre)) (EvCondWait thread) ∧
         wakes w' = [] ∧ threads w' = threads w) ∧
  (∀ wk rest,
     exiting ti = false →
     wakes w = pre ++ wk :: rest → wk_ret wk = 0 →
     thread ∈ (wk_exits wk).*1 →
     ∃ w', ves_icall_System_Threading_Thread_Join_internal this 0 tid w
             = Returned true w' ∧
           log w' = log w ++ EvLock thread ::
                      replicate (S (length pre)) (EvCondWait thread)
                      ++ [EvUnlock thread; EvFree thread] ∧
           wakes w' = rest ∧
           threads w' = delete (g_int tid) <$> threads w ∧
           heap w' !! thread = None) ∧
  (exiting ti = true →
   ∃ w', ves_icall_System_Threading_Thread_Join_internal this 0 tid w
           = Returned true w' ∧
         log w' = log w ++ [EvLock thread; EvUnlock thread; EvFree thread] ∧
         wakes w' = wakes w ∧
         threads w' = delete (g_int tid) <$> threads w ∧
         heap w' !! thread = None).
Proof.
  intros Hreg Hself Hq. split_and!.
  - intros He Hs.
    rewrite (Join_found _ _ _ _ _ _ Hreg Hself). cbn [Z.eqb].
    destruct Hreg as (t&Ht&Hl&Hn&Hh&Hid).
    destruct w as [h t' m sp l s o]. cbn in Ht, Hh, Hs |- *. subst t' s.
    eexists. cbv [mbind M_bind].
    erewrite timed_join_blocked by done. done.
  - intros wk rest He Hs Hret Hin.
    rewrite (Join_found _ _ _ _ _ _ Hreg Hself). cbn [Z.eqb].
    destruct Hreg as (t&Ht&Hl&Hn&Hh&Hid).
    destruct w as [h t' m sp l s o]. cbn in Ht, Hh, Hs |- *. subst t' s.
    destruct (timed_join_last pre wk rest h (Some t) m sp l o thread None false ti)
      as (ti'&Hti'&Hg&Hex&Hjoin); [done..|by right|].
    eexists. cbv [mbind M_bind]. rewrite Hjoin. cbn [fst]. rewrite Hret.
    cbn [Z.eqb].
    erewrite delete_thread_found by done. cbv [mret M_ret].
    split; [done|]. cbn. destruct Hg as (Hid'&_). rewrite Hid', Hid.
    rewrite <- !app_assoc. cbn. rewrite <- !app_assoc. cbn.
    by rewrite lookup_delete_eq.
  - intros He.
    destruct (Join_exited w this 0 tid thread ti Hreg Hself He)
      as (w'&Hj&Ht'&Hh'&Hw'&Hl').
    exists w'. split_and!; try done. rewrite Hh'. apply lookup_delete_eq.
Qed.

(** C2.  Joining the caller's own identity returns [FALSE] for every
    timeout and in every world, after the warning alone: no lock, no
    wait, no return of a wait consumed, registry and handles untouched. *)
Theorem self_join_fails w this ms :
  ves_icall_System_Threading_Thread_Join_internal this ms (os_self (os w)) w
  = Returned false
      (with_log (log w ++ [EvWarning "Can't join my own thread!"]) w).
Proof.
  destruct w as [h t m sp l wk o].
  unfold ves_icall_System_Threading_Thread_Join_internal. run.
  by rewrite Z.eqb_refl.
Qed.

(** C3.  A timed join ([ms <> 0]) whose wait ends with a code other than
    0, [ETIMEDOUT] or any other failure, while the worker is still
    running, returns [FALSE] and leaves the table and the handle as they
    were; only a failure other than [ETIMEDOUT] is warned about.  Once
    the worker has exited a retry, with any timeout, returns [TRUE] and
    removes the entry. *)
Theorem timed_join_failure_keeps_entry w this ms tid thread ti pre wk rest :
  registered w tid thread ti → os_self (os w) ≠ tid → exiting ti = false →
  ms ≠ 0 →
  wakes w = pre ++ wk :: rest → Forall (quiet thread) pre →
  wk_ret wk ≠ 0 → thread ∉ (wk_exits wk).*1 →
  ∃ w1,
    ves_icall_System_Threading_Thread_Join_internal this ms tid w
      = Returned false w1 ∧
    threads w1 = threads w ∧ registered w1 tid thread ti ∧ wakes w1 = rest ∧
    log w1 = log w ++ EvLock thread ::
               replicate (S (length pre))
                 (EvCondTimedWait thread (join_deadline (os_time (os w)) ms))
               ++ EvUnlock thread ::
               (if wk_ret wk =? ETIMEDOUT then []
                else [EvWarning "Timed join error: %s"]) ∧
    ∀ st this' ms',
      ∃ w2,
        ves_icall_System_Threading_Thread_Join_internal this' ms' tid
          (worker_exit thread st w1) = Returned true w2 ∧
        threads w2 = delete (g_int tid) <$> threads w ∧
        heap w2 !! thread = None.
Proof.
  intros Hreg Hself He Hms Hs Hq Hret Hnin.
  rewrite (Join_found _ _ _ _ _ _ Hreg Hself).
  apply Z.eqb_neq in Hms. rewrite Hms.
  destruct Hreg as (t&Ht&Hl&Hn&Hh&Hid).
  destruct w as [h t' m sp l s o]. cbn in Ht, Hh, Hs, Hself |- *. subst t' s.
  cbv [mbind M_bind time]. cbn [os]. cbv zeta.
  change (Some (mkTimespec _ _)) with (Some (join_deadline (os_time o) ms)).
  set (timeout := Some (join_deadline _ _)).
  destruct (timed_join_last pre wk rest h (Some t) m sp l o thread timeout false ti)
    as (ti'&Hti'&_&_&Hjoin); [done..|by left|].
  rewrite apply_exits_lookup_ne, apply_wakes_quiet, Hh in Hti' by done.
  injection Hti' as <-.
  rewrite Hjoin. cbn [fst].
  apply Z.eqb_neq in Hret. rewrite Hret.
  assert (Hreg1 : ∀ l', registered
            (mkWorld (apply_exits (wk_exits wk) (apply_wakes pre h))
               (Some t) m sp l' rest o) tid thread ti).
  { intros l'. exists t. split_and!; try done.
    cbn. by rewrite apply_exits_lookup_ne, apply_wakes_quiet. }
  assert (Hretry : ∀ l' st this' ms', ∃ w2,
            ves_icall_System_Threading_Thread_Join_internal this' ms' tid
              (worker_exit thread st
                 (mkWorld (apply_exits (wk_exits wk) (apply_wakes pre h))
                    (Some t) m sp l' rest o)) = Returned true w2 ∧
            threads w2 = Some (delete (g_int tid) t) ∧
            heap w2 !! thread = None).
  { intros l' st this' ms'.
    destruct (Join_exited (worker_exit thread st
                 (mkWorld (apply_exits (wk_exits wk) (apply_wakes pre h))
                    (Some t) m sp l' rest o)) this' ms' tid thread (announce st ti))
      as (w2&Hj&Ht2&Hh2&_); [| done | apply announce_grows |].
    - exists t. split_and!; try done; cbn.
      + by rewrite lookup_alter_eq, apply_exits_lookup_ne, apply_wakes_quiet, Hh.
    - exists w2. split_and!; [done|done|]. rewrite Hh2. apply lookup_delete_eq. }
  destruct (wk_ret wk =? ETIMEDOUT) eqn:Eto; cbv [negb g_warning emit mret M_ret
    mbind M_bind with_log heap threads main_thread specific log wakes os];
    eexists; (split; [reflexivity|]); cbn [threads wakes log]; split_and!; try done;
    rewrite <- !app_assoc; cbn; by rewrite <- ?app_assoc.
Qed.

Lemma join_zero_witness :
  ∃ w', ves_icall_System_Threading_Thread_Join_internal 5 0 2051
          (w_running [mkWake 0 []; mkWake 0 [(4096, 42)]; mkWake 0 []])
          = Returned true w' ∧
        log w' = [EvLock 4096; EvCondWait 4096; EvCondWait 4096;
                  EvUnlock 4096; EvFree 4096] ∧
        wakes w' = [mkWake 0 []] ∧
        threads w' = delete 2051 <$> Some {[2051 := 4096]} ∧
        heap w' !! 4096 = None.
Proof.
  refine (proj1 (proj2 (join_zero_waits_until_exit
                   (w_running [mkWake 0 []; mkWake 0 [(4096, 42)]; mkWake 0 []])
                   5 2051 4096 handle_demo [mkWake 0 []] _ _ _))
            (mkWake 0 [(4096, 42)]) [mkWake 0 []] _ _ _ _).
  - exists {[2051 := 4096]}. repeat split; try reflexivity. discriminate.
  - discriminate.
  - repeat constructor. cbn. inversion 1.
  - reflexivity.
  - reflexivity.
  - reflexivity.
  - cbn. left.
Defined.

Lemma timed_join_failure_witness :
  ∃ w1,
    ves_icall_System_Threading_Thread_Join_internal 5 1500 2051
      (w_running [mkWake 0 []; mkWake ETIMEDOUT []]) = Returned false w1 ∧
    threads w1 = Some {[2051 := 4096]} ∧
    registered w1 2051 4096 handle_demo ∧ wakes w1 = [] ∧
    log w1 = [EvLock 4096;
              EvCondTimedWait 4096 (mkTimespec 101 500000);
              EvCondTimedWait 4096 (mkTimespec 101 500000);
              EvUnlock 4096] ∧
    ∀ st this' ms',
      ∃ w2,
        ves_icall_System_Threading_Thread_Join_internal this' ms' 2051
          (worker_exit 4096 st w1) = Returned true w2 ∧
        threads w2 = delete 2051 <$> Some {[2051 := 4096]} ∧
        heap w2 !! 4096 = None.
Proof.
  refine (timed_join_failure_keeps_entry
            (w_running [mkWake 0 []; mkWake ETIMEDOUT []])
            5 1500 2051 4096 handle_demo [mkWake 0 []] (mkWake ETIMEDOUT []) []
            _ _ _ _ _ _ _ _).
  - exists {[2051 := 4096]}. repeat split; try reflexivity. discriminate.
  - discriminate.
  - reflexivity.
  - discriminate.
  - reflexivity.
  - repeat constructor. cbn. inversion 1.
  - discriminate.
  - cbn. inversion 1.
Defined.

(** ** Joining twice *)

(** C8.  On a handle whose worker has exited and that is still
    allocated, every one of any number of successive calls of
    [timed_thread_join], with or without a deadline, returns 0 with the
    recorded status and without a wait: the log gains a lock and an
    unlock per call, no return of a wait is consumed and the handles stay
    as they were. *)
Theorem join_idempotent_before_removal reqs : ∀ w thread ti,
  heap w !! thread = Some ti → exiting ti = true →
  ∃ w',
    join_each thread reqs w
      = Returned
          (map (λ req : option timespec * bool,
                  (0, if req.2 then Some (status ti) else None)) reqs) w' ∧
    heap w' = heap w ∧ threads w' = threads w ∧ wakes w' = wakes w ∧
    log w' = log w ++ concat (map (λ _, [EvLock thread; EvUnlock thread]) reqs).
Proof.
  induction reqs as [|[timeout want] reqs IH]; intros w thread ti Hh He.
  - exists w. cbn. by rewrite app_nil_r.
  - cbn [join_each map concat fst snd]. cbv [mbind M_bind].
    rewrite (timed_join_exited w thread timeout want ti Hh He).
    destruct (IH (with_log (log w ++ [EvLock thread; EvUnlock thread]) w)
                thread ti Hh He) as (w'&Hj&Hh'&Ht'&Hw'&Hl').
    exists w'. rewrite Hj. split_and!; try done.
    rewrite Hl'. cbn [with_log log]. by rewrite <- app_assoc.
Qed.

Lemma join_idempotent_witness :
  ∃ w',
    join_each 4096 [(None, true); (Some (mkTimespec 101 0), true)]
      (worker_exit 4096 42 (w_running []))
      = Returned [(0, Some 42); (0, Some 42)] w' ∧
    heap w' = heap (worker_exit 4096 42 (w_running [])) ∧
    threads w' = Some {[2051 := 4096]} ∧ wakes w' = [] ∧
    log w' = [EvLock 4096; EvUnlock 4096; EvLock 4096; EvUnlock 4096].
Proof.
  refine (join_idempotent_before_removal
            [(None, true); (Some (mkTimespec 101 0), true)]
            (worker_exit 4096 42 (w_running [])) 4096
            (announce 42 handle_demo) _ _).
  - reflexivity.
  - reflexivity.
Defined.

(** ** Milliseconds *)

(** Both conversions from milliseconds multiply the remainder by 1000:
    the [tv_nsec] they build holds microseconds.  The span they describe
    is short of [ms] milliseconds by 999000 ns for every millisecond
    beyond a whole second. *)
Lemma join_deadline_ns now ms :
  timespec_ns (join_deadline now ms)
  = now * 10 ^ 9 + ms_ns ms - Z.rem ms 1000 * 999000.
Proof.
  unfold timespec_ns, join_deadline, ms_ns, div. cbn [tv_sec tv_nsec quot rem].
  pose proof (Z.quot_rem' ms 1000). lia.
Qed.

Lemma join_deadline_exact_iff now ms :
  timespec_ns (join_deadline now ms) = now * 10 ^ 9 + ms_ns ms
  ↔ Z.rem ms 1000 = 0.
Proof. rewrite join_deadline_ns. lia. Qed.

(** C5.  At [ms = 500] and [time(NULL) = 100] the timed wait is handed
    the deadline 100 s + 500000 ns, half a millisecond after the start of
    the current second, and not the point 500 ms from now. *)
Theorem join_deadline_500 :
  ∃ w1,
    ves_icall_System_Threading_Thread_Join_internal 5 500 2051
      (w_running [mkWake ETIMEDOUT []]) = Returned false w1 ∧
    log w1 = [EvLock 4096; EvCondTimedWait 4096 (mkTimespec 100 500000);
              EvUnlock 4096] ∧
    join_deadline (os_time os_demo) 500 = mkTimespec 100 500000 ∧
    timespec_ns (mkTimespec 100 500000) = 100 * 10 ^ 9 + 500000 ∧
    timespec_ns (mkTimespec 100 500000)
      ≠ os_time os_demo * 10 ^ 9 + ms_ns 500.
Proof.
  eexists. split; [vm_compute; reflexivity|]. cbn [log].
  split_and!; [reflexivity..|]. vm_compute. discriminate.
Qed.

(** The request handed to [nanosleep]. *)
Lemma sleep_request w ms :
  ∃ w' r,
    ves_icall_System_Threading_Thread_Sleep_internal ms w = Returned r w' ∧
    log w' = log w ++ [EvNanosleep {| tv_sec := Z.quot ms 1000;
                                      tv_nsec := Z.rem ms 1000 * 1000 |}] ∧
    r = if (os_nanosleep (os w)).1 <? 0
        then to_gint32 (tv_sec (os_nanosleep (os w)).2 * 1000
                        + Z.quot (tv_nsec (os_nanosleep (os w)).2) 1000)
        else 0.
Proof.
  destruct w as [h t m sp l s o].
  unfold ves_icall_System_Threading_Thread_Sleep_internal. run.
  cbn [div quot rem].
  destruct (_ <? 0); eauto.
Qed.

(** C4.  [sleep(500)] asks [nanosleep] for 0 s and 500000 ns, half a
    millisecond; interrupted with 200000 ns (0.2 ms) left it returns 200.
    Uninterrupted it returns 0. *)
Theorem sleep_500 :
  (∃ w',
     ves_icall_System_Threading_Thread_Sleep_internal 500
       (w_sleep (-1, mkTimespec 0 200000)) = Returned 200 w' ∧
     log w' = [EvNanosleep (mkTimespec 0 500000)]) ∧
  (∃ w',
     ves_icall_System_Threading_Thread_Sleep_internal 500
       (w_sleep (0, mkTimespec 0 0)) = Returned 0 w' ∧
     log w' = [EvNanosleep (mkTimespec 0 500000)]) ∧
  timespec_ns (mkTimespec 0 500000) ≠ ms_ns 500 ∧
  timespec_ns (mkTimespec 0 200000) `quot` 10 ^ 6 = 0.
Proof.
  split_and!; [eexists; split; vm_compute; reflexivity..| |reflexivity].
  vm_compute. discriminate.
Qed.

(** ** Starting a worker *)

Lemma timed_thread_create_ok h t m sp l s o attr f a :
  (os_create o).1 = 0 →
  timed_thread_create attr f a (mkWorld h t m sp l s o)
  = Returned (0, Some (os_malloc o))
      (mkWorld (<[os_malloc o := created (os_create o).2 f a]> h) t m sp
         (l ++ create_log (os_malloc o) f a ++ [EvDetach (os_create o).2])
         s o).
Proof.
  destruct (os_create o) as [r tid] eqn:E. cbn [fst snd]. intros ->.
  unfold timed_thread_create. run.
  rewrite !lookup_insert_eq, !insert_insert_eq, E. cbn.
  rewrite !lookup_insert_eq, !insert_insert_eq. cbn.
  rewrite !lookup_insert_eq. cbn.
  by rewrite <- !app_assoc.
Qed.

Lemma timed_thread_create_failed h t m sp l s o attr f a :
  h !! os_malloc o = None → (os_create o).1 ≠ 0 →
  timed_thread_create attr f a (mkWorld h t m sp l s o)
  = Returned ((os_create o).1, None)
      (mkWorld h t m sp
         (l ++ create_log (os_malloc o) f a ++ [EvFree (os_malloc o)]) s o).
Proof.
  destruct (os_create o) as [r tid] eqn:E. cbn [fst snd]. intros Hfresh Hc.
  unfold timed_thread_create. run.
  apply Z.eqb_neq in Hc.
  rewrite !lookup_insert_eq, !insert_insert_eq, E, Hc. cbn.
  rewrite Hc. cbn. rewrite lookup_insert_eq. cbn.
  rewrite delete_insert_id by done.
  by rewrite <- !app_assoc.
Qed.

Lemma Start_ok h t m sp l s o this start :
  os_method_ptr o start ≠ NULL → (os_create o).1 = 0 →
  ves_icall_System_Threading_Thread_Start_internal this start
    (mkWorld h t m sp l s o)
  = Returned (os_create o).2
      (mkWorld
         (<[os_malloc o :=
              set_field Fobject this
                (created (os_create o).2 (os_method_ptr o start) NULL)]> h)
         (Some (<[g_int (os_create o).2 := os_malloc o]> (default ∅ t))) m sp
         (l ++ create_log (os_malloc o) (os_method_ptr o start) NULL
            ++ [EvDetach (os_create o).2; EvWrite (os_malloc o) Fobject this])
         s o).
Proof.
  intros Hf Hc. unfold ves_icall_System_Threading_Thread_Start_internal.
  cbv [mbind M_bind get_world os]. apply Z.eqb_neq in Hf. rewrite Hf.
  rewrite timed_thread_create_ok by done. cbn [fst snd Z.eqb negb].
  destruct t as [t|]; run; rewrite !lookup_insert_eq; cbn;
    rewrite ?lookup_insert_eq, !insert_insert_eq; cbn;
    by rewrite <- !app_assoc.
Qed.

Lemma Start_failed h t m sp l s o this start :
  os_method_ptr o start ≠ NULL →
  h !! os_malloc o = None → (os_create o).1 ≠ 0 →
  ves_icall_System_Threading_Thread_Start_internal this start
    (mkWorld h t m sp l s o)
  = Returned 0
      (mkWorld h t m sp
         (l ++ create_log (os_malloc o) (os_method_ptr o start) NULL
            ++ [EvFree (os_malloc o); EvWarning "pthread_create error: %s"])
         s o).
Proof.
  intros Hf Hfresh Hc. unfold ves_icall_System_Threading_Thread_Start_internal.
  cbv [mbind M_bind get_world os]. apply Z.eqb_neq in Hf. rewrite Hf.
  rewrite timed_thread_create_failed by done. cbn [fst snd].
  apply Z.eqb_neq in Hc. rewrite Hc. run. cbn.
  by rewrite <- !app_assoc.
Qed.

(** C6.  [Start_internal] has three outcomes.  With no callable in the
    delegate it warns and returns 0, the world otherwise untouched.  When
    [pthread_create] fails it returns 0 as well, and the block allocated
    for the handle has been freed: handles and table are what they were.
    Otherwise it returns the identity [pthread_create] stored, the table
    (created if there was none) maps that identity to the new handle, and
    the handle carries the identity, the owner, the callable, a [NULL]
    argument and a clear [exiting] flag. *)
Theorem start_outcomes w this start :
  heap w !! os_malloc (os w) = None → os_malloc (os w) ≠ NULL →
  (os_method_ptr (os w) start = NULL →
   ves_icall_System_Threading_Thread_Start_internal this start w
   = Returned 0
       (with_log (log w ++ [EvWarning "Can't locate start method!"]) w)) ∧
  (os_method_ptr (os w) start ≠ NULL → (os_create (os w)).1 ≠ 0 →
   ∃ w',
     ves_icall_System_Threading_Thread_Start_internal this start w
       = Returned 0 w' ∧
     heap w' = heap w ∧ threads w' = threads w ∧
     log w' = log w
              ++ create_log (os_malloc (os w)) (os_method_ptr (os w) start) NULL
              ++ [EvFree (os_malloc (os w));
                  EvWarning "pthread_create error: %s"]) ∧
  (os_method_ptr (os w) start ≠ NULL → (os_create (os w)).1 = 0 →
   ∃ w' ti,
     ves_icall_System_Threading_Thread_Start_internal this start w
       = Returned (os_create (os w)).2 w' ∧
     ti = {| id := (os_create (os w)).2; object := this;
             start_routine := os_method_ptr (os w) start; arg := NULL;
             status := NULL; exiting := false |} ∧
     heap w' = <[os_malloc (os w) := ti]> (heap w) ∧
     threads w' = Some (<[g_int (os_create (os w)).2 := os_malloc (os w)]>
                          (default ∅ (threads w))) ∧
     registered w' (os_create (os w)).2 (os_malloc (os w)) ti).
Proof.
  destruct w as [h t m sp l s o]. cbn [heap os log threads]. intros Hfresh Hp.
  split_and!.
  - intros Hf. unfold ves_icall_System_Threading_Thread_Start_internal. run.
    by rewrite Hf.
  - intros Hf Hc. eexists. by rewrite Start_failed.
  - intros Hf Hc. eexists _, _. rewrite Start_ok by done.
    split_and!; try reflexivity.
    eexists. cbn. split_and!; try reflexivity; try done.
    + apply lookup_insert_eq.
    + apply lookup_insert_eq.
Qed.

Lemma timed_thread_exit_found h t m l s o thread st ti :
  thread ≠ NULL → h !! thread = Some ti →
  timed_thread_exit st (mkWorld h t m thread l s o)
  = Exited (mkWorld (<[thread := announce st ti]> h) t m thread
              (l ++ exit_log thread st) s o).
Proof.
  intros Hn Hh. unfold timed_thread_exit. run.
  apply Z.eqb_neq in Hn. rewrite Hn, Hh. cbn.
  rewrite lookup_insert_eq, insert_insert_eq. cbn.
  by rewrite <- !app_assoc.
Qed.

Lemma worker_exit_heap thread st w ti :
  heap w !! thread = Some ti →
  heap (worker_exit thread st w) = <[thread := announce st ti]> (heap w).
Proof.
  intros Hh. destruct w. cbn in *. apply map_eq. intros p.
  rewrite lookup_alter, lookup_insert. case_decide; subst; by rewrite ?Hh.
Qed.

Lemma trampoline_returns h t m sp l s o thread ti st :
  thread ≠ NULL → h !! thread = Some ti →
  os_run o (start_routine ti) (arg ti) = Some st →
  timed_thread_start_routine thread (mkWorld h t m sp l s o)
  = Exited (mkWorld (<[thread := announce st ti]> h) t m thread
              (l ++ [EvOnce; EvSetSpecific thread;
                     EvCall (start_routine ti) (arg ti)]
                 ++ exit_log thread st) s o).
Proof.
  intros Hn Hh Hrun. unfold timed_thread_start_routine.
  cbv [mbind M_bind pthread_once pthread_setspecific emit set_specific load
       call get_world mret M_ret with_log with_specific heap threads
       main_thread specific log wakes os].
  rewrite Hh, Hrun.
  erewrite timed_thread_exit_found by done.
  by rewrite <- !app_assoc.
Qed.

Lemma trampoline_stuck h t m sp l s o thread ti :
  h !! thread = Some ti →
  os_run o (start_routine ti) (arg ti) = None →
  timed_thread_start_routine thread (mkWorld h t m sp l s o)
  = Blocked (mkWorld h t m thread
               (l ++ [EvOnce; EvSetSpecific thread;
                      EvCall (start_routine ti) (arg ti)]) s o).
Proof.
  intros Hh Hrun. unfold timed_thread_start_routine.
  cbv [mbind M_bind pthread_once pthread_setspecific emit set_specific load
       call get_world mret M_ret with_log with_specific heap threads
       main_thread specific log wakes os block].
  rewrite Hh, Hrun. by rewrite <- !app_assoc.
Qed.

(** C10.  A successful [Start_internal] stores [NULL] as the argument of
    the handle, whatever [this] and [start] are; and the trampoline, run
    on that handle at any later time (the handle may have grown in the
    meantime), makes exactly one call, the resolved callable applied to
    [NULL]. *)
Theorem start_passes_null w this start :
  os_method_ptr (os w) start ≠ NULL → (os_create (os w)).1 = 0 →
  ∃ w' ti,
    ves_icall_System_Threading_Thread_Start_internal this start w
      = Returned (id ti) w' ∧
    heap w' !! os_malloc (os w) = Some ti ∧
    start_routine ti = os_method_ptr (os w) start ∧ arg ti = NULL ∧
    EvWrite (os_malloc (os w)) Farg NULL ∈ log w' ∧
    ∀ w2 ti2,
      heap w2 !! os_malloc (os w) = Some ti2 → grows ti ti2 →
      ∃ w3 tail,
        (timed_thread_start_routine (os_malloc (os w)) w2 = Exited w3 ∨
         timed_thread_start_routine (os_malloc (os w)) w2 = Blocked w3) ∧
        log w3 = log w2 ++ EvOnce :: EvSetSpecific (os_malloc (os w)) ::
                   EvCall (os_method_ptr (os w) start) NULL :: tail ∧
        filter is_call tail = [].
Proof.
  destruct w as [h t m sp l s o]. cbn [heap os log threads]. intros Hf Hc.
  eexists _, (set_field Fobject this
                (created (os_create o).2 (os_method_ptr o start) NULL)).
  rewrite Start_ok by done. split_and!.
  - reflexivity.
  - apply lookup_insert_eq.
  - reflexivity.
  - reflexivity.
  - cbn [log]. rewrite !elem_of_app. right. left. unfold create_log.
    rewrite !elem_of_cons. auto 10.
  - intros [h2 t2 m2 sp2 l2 s2 o2] ti2 Hh2 (_&_&Hsr&Harg&_).
    cbn [heap log] in *. cbn in Hsr, Harg. rewrite <- Hsr, <- Harg.
    destruct (os_run o2 (start_routine ti2) (arg ti2)) as [st|] eqn:Hrun.
    + unfold timed_thread_start_routine.
      cbv [mbind M_bind pthread_once pthread_setspecific emit set_specific load
           call get_world mret M_ret with_log with_specific heap threads
           main_thread specific log wakes os timed_thread_exit
           pthread_getspecific store pthread_mutex_lock pthread_mutex_unlock
           pthread_cond_signal pthread_exit with_heap].
      rewrite Hh2, Hrun.
      destruct (os_malloc o =? NULL).
      * eexists _, _. split_and!; [by left| |].
        -- cbn [log]. rewrite <- !app_assoc. reflexivity.
        -- reflexivity.
      * rewrite Hh2. cbn. rewrite lookup_insert_eq. cbn.
        eexists _, _. split_and!; [by left| |].
        -- cbn [log]. rewrite <- !app_assoc. reflexivity.
        -- reflexivity.
    + eexists _, []. rewrite (trampoline_stuck _ _ _ _ _ _ _ _ ti2) by done.
      split_and!; [by right|done|done].
Qed.

(** ** The drain at shutdown *)

Lemma heap_grows_refl h : heap_grows h h.
Proof. intros p. destruct (h !! p) eqn:E; eauto using grows_refl. Qed.

Lemma heap_grows_trans h1 h2 h3 :
  heap_grows h1 h2 → heap_grows h2 h3 → heap_grows h1 h3.
Proof.
  intros H12 H23 p. specialize (H12 p). specialize (H23 p).
  destruct (h1 !! p) as [ti|].
  - destruct H12 as (ti2&E2&G2). rewrite E2 in H23.
    destruct H23 as (ti3&E3&G3). eauto using grows_trans.
  - by rewrite H12 in H23.
Qed.

Lemma apply_exits_grows xs h : heap_grows h (apply_exits xs h).
Proof.
  intros p. destruct (h !! p) as [ti|] eqn:E.
  - destruct (apply_exits_lookup xs h p ti E) as (ti'&?&?&?). eauto.
  - by apply apply_exits_lookup_None.
Qed.

Lemma apply_wakes_grows s : ∀ h, heap_grows h (apply_wakes s h).
Proof.
  induction s as [|wk s IH]; intros h; [apply heap_grows_refl|].
  unfold apply_wakes in *. cbn. eapply heap_grows_trans; [|apply IH].
  apply apply_exits_grows.
Qed.

Lemma heap_grows_exited h h' (p : Z) ti :
  heap_grows h h' → h !! p = Some ti → exiting ti = true →
  ∃ ti', h' !! p = Some ti' ∧ exiting ti' = true.
Proof.
  intros Hg Hh He. specialize (Hg p). rewrite Hh in Hg.
  destruct Hg as (ti'&?&(_&_&_&_&Hex)). eauto.
Qed.

Lemma heap_grows_allocated h h' (p : Z) :
  heap_grows h h' → is_Some (h !! p) → is_Some (h' !! p).
Proof.
  intros Hg [ti Hh]. specialize (Hg p). rewrite Hh in Hg.
  destruct Hg as (ti'&->&_). eauto.
Qed.

Lemma script_split thread s :
  Forall succeeds s →
  Forall (quiet thread) s ∨
  ∃ pre wk rest, s = pre ++ wk :: rest ∧ Forall (quiet thread) pre ∧
                 succeeds wk ∧ thread ∈ (wk_exits wk).*1 ∧ Forall succeeds rest.
Proof.
  induction 1 as [|wk s Hwk Hs IH]; [by left|].
  destruct (decide (thread ∈ (wk_exits wk).*1)) as [Hin|Hnin].
  - right. by exists [], wk, s.
  - destruct IH as [Hq|(pre&wk'&rest&->&Hq&?&?&?)].
    + left. by constructor.
    + right. exists (wk :: pre), wk', rest. split_and!; try done.
      by constructor.
Qed.

Lemma forallb_untimed_replicate n thread :
  forallb is_untimed_join_event (replicate n (EvCondWait thread)) = true.
Proof. induction n; [done|]. by cbn. Qed.

Lemma apply_wakes_app a b h :
  apply_wakes (a ++ b) h = apply_wakes b (apply_wakes a h).
Proof. apply foldl_app. Qed.

Lemma apply_wakes_take_add n1 n2 s h :
  apply_wakes (take (n1 + n2) s) h
  = apply_wakes (take n2 (drop n1 s)) (apply_wakes (take n1 s) h).
Proof. by rewrite <- take_take_drop, apply_wakes_app. Qed.

Lemma apply_wakes_take_drop n s h :
  apply_wakes (drop n s) (apply_wakes (take n s) h) = apply_wakes s h.
Proof. by rewrite <- apply_wakes_app, take_drop. Qed.

Lemma is_exited_grows h h' (v : Z) :
  heap_grows h h' → is_exited h v = true → is_exited h' v = true.
Proof.
  unfold is_exited. intros Hg. specialize (Hg v).
  destruct (h !! v) as [ti|]; [|done].
  destruct Hg as (ti'&->&(_&_&_&_&Hex)). done.
Qed.

Lemma is_exited_allocated h (v : Z) :
  is_exited h v = true → is_Some (h !! v).
Proof. unfold is_exited. destruct (h !! v); [eauto|done]. Qed.

Lemma waits_app d1 d2 : waits (d1 ++ d2) = (waits d1 + waits d2)%nat.
Proof. unfold waits. by rewrite List.filter_app, length_app. Qed.

Lemma waits_replicate n thread : waits (replicate n (EvCondWait thread)) = n.
Proof. induction n as [|n IH]; [done|]. unfold waits in *. cbn. by rewrite IH. Qed.

(** One join of the drain: it takes the returns of the wait up to the
    first one that carries the exit of the worker, and no more. *)
Lemma join_all_threads_one h t m sp l s o key thread :
  is_Some (h !! thread) → Forall succeeds s →
  (∃ n,
     (n ≤ length s)%nat ∧
     join_all_threads key thread (mkWorld h t m sp l s o)
       = Returned tt
           (mkWorld (apply_wakes (take n s) h) t m sp
              (l ++ EvLock thread :: replicate n (EvCondWait thread)
                 ++ [EvUnlock thread]) (drop n s) o) ∧
     is_exited (apply_wakes (take n s) h) thread = true ∧
     (n = 0%nat ∨
      is_exited (apply_wakes (take (n - 1) s) h) thread = false)) ∨
  (join_all_threads key thread (mkWorld h t m sp l s o)
     = Blocked
         (mkWorld (apply_wakes s h) t m sp
            (l ++ EvLock thread ::
               replicate (S (length s)) (EvCondWait thread)) [] o) ∧
   is_exited (apply_wakes s h) thread = false).
Proof.
  intros [ti Hh] Hs. unfold join_all_threads. cbv [mbind M_bind].
  destruct (exiting ti) eqn:He.
  { left. exists 0%nat.
    rewrite (timed_join_exited (mkWorld h t m sp l s o) thread None false ti
               Hh He).
    cbn. split_and!; [lia|done| |by left].
    rewrite take_0. unfold is_exited, apply_wakes. cbn [foldl].
    by rewrite Hh. }
  destruct (script_split thread s Hs) as [Hq|(pre&wk&rest&->&Hq&Hwk&Hin&Hrest)].
  - right.
    rewrite (timed_join_blocked s h t m sp l o thread None false ti) by done.
    split; [done|]. unfold is_exited. by rewrite apply_wakes_quiet, Hh.
  - left. exists (S (length pre)).
    destruct (timed_join_last pre wk rest h t m sp l o thread None false ti)
      as (ti'&Hti'&Hg&Hex&->); [done..|by right|].
    assert (Htake : take (S (length pre)) (pre ++ wk :: rest) = pre ++ [wk]).
    { rewrite cons_middle, app_assoc. apply take_app_length'.
      rewrite length_app. cbn. lia. }
    assert (Hdrop : drop (S (length pre)) (pre ++ wk :: rest) = rest).
    { rewrite cons_middle, app_assoc. apply drop_app_length'.
      rewrite length_app. cbn. lia. }
    rewrite Htake, Hdrop, apply_wakes_app.
    change (apply_wakes [wk] (apply_wakes pre h))
      with (apply_exits (wk_exits wk) (apply_wakes pre h)).
    split_and!.
    + rewrite length_app. cbn. lia.
    + done.
    + unfold is_exited. rewrite Hti'. by apply Hex.
    + right. cbn [Nat.sub]. rewrite Nat.sub_0_r, take_app_length.
      unfold is_exited. by rewrite apply_wakes_quiet, Hh.
Qed.

(** The first pass of the drain over the entries: it takes the returns of
    the wait up to the first moment at which every worker has exited. *)
Lemma join_pass entries : ∀ h t m sp l s o,
  (∀ v, v ∈ entries.*2 → is_Some (h !! v)) → Forall succeeds s →
  (∃ n d,
     (n ≤ length s)%nat ∧
     foreach join_all_threads entries (mkWorld h t m sp l s o)
       = Returned tt
           (mkWorld (apply_wakes (take n s) h) t m sp (l ++ d) (drop n s) o) ∧
     (∀ v, v ∈ entries.*2 →
           is_exited (apply_wakes (take n s) h) v = true ∧
           EvLock v ∈ d ∧ EvUnlock v ∈ d) ∧
     (n = 0%nat ∨
      ∃ v, v ∈ entries.*2 ∧
           is_exited (apply_wakes (take (n - 1) s) h) v = false) ∧
     forallb is_untimed_join_event d = true ∧ waits d = n) ∨
  (∃ d v,
     foreach join_all_threads entries (mkWorld h t m sp l s o)
       = Blocked (mkWorld (apply_wakes s h) t m sp (l ++ d) [] o) ∧
     v ∈ entries.*2 ∧ is_exited (apply_wakes s h) v = false ∧
     forallb is_untimed_join_event d = true ∧ waits d = S (length s)).
Proof.
  induction entries as [|[k v] entries IH]; intros h t m sp l s o Halloc Hs.
  - left. exists 0%nat, []. cbn. rewrite app_nil_r.
    split_and!; [lia|done| |by left|done..].
    intros v Hv. by apply elem_of_nil in Hv.
  - cbn [foreach]. cbv [mbind M_bind].
    destruct (join_all_threads_one h t m sp l s o k v) as
      [(n1&Hn1&->&He1&Hmin1)|(->&He1)];
      [apply Halloc; cbn; apply elem_of_cons; by left|done| |].
    + set (d1 := EvLock v :: replicate n1 (EvCondWait v) ++ [EvUnlock v]).
      assert (Hd1 : forallb is_untimed_join_event d1 = true).
      { subst d1. cbn. rewrite forallb_app.
        by rewrite forallb_untimed_replicate. }
      assert (Hw1 : waits d1 = n1).
      { subst d1. change (EvLock v :: ?x) with ([EvLock v] ++ x).
        rewrite !waits_app, waits_replicate. cbn. lia. }
      destruct (IH (apply_wakes (take n1 s) h) t m sp (l ++ d1) (drop n1 s) o)
        as [(n2&d2&Hn2&->&Hex2&Hmin2&Hd2&Hw2)|(d2&v2&->&Hv2&He2&Hd2&Hw2)].
      * intros v' Hv'. eapply heap_grows_allocated; [apply apply_wakes_grows|].
        apply Halloc. cbn. apply elem_of_cons. by right.
      * by apply Forall_drop.
      * rewrite length_drop in Hn2.
        left. exists (n1 + n2)%nat, (d1 ++ d2).
        rewrite <- apply_wakes_take_add, drop_drop, <- app_assoc.
        split_and!; [lia|done| | | |].
        -- intros v'. rewrite fmap_cons. cbn [snd].
           intros [->|Hv']%elem_of_cons.
           ++ split_and!.
              ** rewrite apply_wakes_take_add.
                 eapply is_exited_grows; [apply apply_wakes_grows|done].
              ** apply elem_of_app. left. subst d1. apply elem_of_cons.
                 by left.
              ** apply elem_of_app. left. subst d1. apply elem_of_cons.
                 right. apply elem_of_app. right. apply elem_of_cons.
                 by left.
           ++ destruct (Hex2 v' Hv') as (?&?&?).
              rewrite apply_wakes_take_add.
              split_and!; [done|apply elem_of_app; by right..].
        -- destruct (decide (n2 = 0%nat)) as [->|Hn2'].
           ++ rewrite Nat.add_0_r. destruct Hmin1 as [->|Hmin1]; [by left|].
              right. exists v. split; [|done]. cbn. apply elem_of_cons.
              by left.
           ++ right. destruct Hmin2 as [?|(v2&Hv2&He2)]; [done|].
              exists v2. split; [cbn; apply elem_of_cons; by right|].
              replace (n1 + n2 - 1)%nat with (n1 + (n2 - 1))%nat by lia.
              by rewrite apply_wakes_take_add.
        -- by rewrite forallb_app, Hd1, Hd2.
        -- rewrite waits_app. lia.
      * rewrite length_drop in Hw2. rewrite apply_wakes_take_drop in *.
        right. exists (d1 ++ d2), v2. rewrite <- app_assoc.
        split_and!; try done.
        -- cbn. apply elem_of_cons. by right.
        -- by rewrite forallb_app, Hd1, Hd2.
        -- rewrite waits_app. lia.
    + right. eexists _, v. split_and!; [reflexivity| |done| |].
      * cbn. apply elem_of_cons. by left.
      * cbn. apply forallb_untimed_replicate.
      * change (EvLock v :: ?x) with ([EvLock v] ++ x).
        rewrite waits_app, waits_replicate. done.
Qed.

Lemma free_all_lookup vs : ∀ h (p : Z),
  free_all vs h !! p = if decide (p ∈ vs) then None else h !! p.
Proof.
  induction vs as [|v vs IH]; intros h p.
  - cbn. case_decide as Hin; [by apply elem_of_nil in Hin|done].
  - unfold free_all in *. cbn [foldl]. rewrite IH.
    destruct (decide (p ∈ vs)) as [Hin|Hnin].
    + rewrite decide_True; [done|]. apply elem_of_cons. by right.
    + destruct (decide (p = v)) as [->|Hne].
      * rewrite decide_True; [apply lookup_delete_eq|].
        apply elem_of_cons. by left.
      * rewrite decide_False, lookup_delete_ne; [done..|].
        by intros [?|?]%elem_of_cons.
Qed.

(** The second pass: every handle freed, every entry removed. *)
Lemma free_pass entries : ∀ h t m sp l s o,
  NoDup entries.*2 → (∀ v, v ∈ entries.*2 → is_Some (h !! v)) →
  foreach_remove free_all_threadinfo entries (mkWorld h (Some t) m sp l s o)
  = Returned tt
      (mkWorld (free_all entries.*2 h)
         (Some (foldl (λ t k, delete k t) t entries.*1)) m sp
         (l ++ (EvFree <$> entries.*2)) s o).
Proof.
  induction entries as [|[k v] entries IH]; intros h t m sp l s o Hnd Halloc.
  - cbn. by rewrite app_nil_r.
  - cbn [fmap list_fmap snd] in Hnd. apply NoDup_cons in Hnd as [Hv Hnd].
    destruct (Halloc v) as [ti Hti]; [cbn; apply elem_of_cons; by left|].
    cbn [foreach_remove]. unfold free_all_threadinfo. run. rewrite Hti.
    cbn [fmap option_fmap option_map].
    rewrite IH; [|done|].
    + cbn. by rewrite <- app_assoc.
    + intros v' Hv'. rewrite lookup_delete_ne by (intros ->; done).
      apply Halloc. cbn. apply elem_of_cons. by right.
Qed.

Lemma elem_of_values (t : gmap Z Z) (v : Z) :
  v ∈ (map_to_list t).*2 ↔ ∃ k, t !! k = Some v.
Proof.
  rewrite list_elem_of_fmap. split.
  - intros ([k v']&->&Hin). exists k. by apply elem_of_map_to_list.
  - intros (k&Hk). exists (k, v). split; [done|]. by apply elem_of_map_to_list.
Qed.

Lemma registry_wf_NoDup w t :
  registry_wf w → threads w = Some t → NoDup (map_to_list t).*2.
Proof.
  intros Hwf Ht. apply NoDup_fmap_2_strong; [|apply NoDup_map_to_list].
  intros [k1 v1] [k2 v2] H1%elem_of_map_to_list H2%elem_of_map_to_list Hv.
  cbn in Hv. subst v2.
  destruct (Hwf t k1 v1 Ht H1) as (ti1&Hh1&Hid1).
  destruct (Hwf t k2 v1 Ht H2) as (ti2&Hh2&Hid2).
  congruence.
Qed.

(** C9.  [mono_thread_cleanup] with no table returns at once.  With a
    table whose entries are handles, and waits that return 0, what it
    does is decided by the returns of the wait that are left.

    If every registered worker has exited by the time they run out, the
    drain returns.  It has taken the first [n] of them, [n] being the
    first moment at which every registered worker has exited: at [n]
    all have [exiting] set, and one step earlier one had not.  Its log
    is that of the joins, [d], followed by one [g_free] per registered
    handle: [d] holds untimed joins only, a lock and an unlock for every
    registered handle, and exactly [n] waits.  Every registered handle
    is freed, no other handle is touched by the freeing, and [threads]
    is [NULL] again, the state in which [Start_internal] creates a
    table.

    If some registered worker has still not exited when the returns run
    out, the drain does not return: it stays blocked in a wait, every
    return consumed, nothing freed and the table still in place. *)
Theorem cleanup_drains w :
  registry_wf w → Forall succeeds (wakes w) →
  match threads w with
  | None => mono_thread_cleanup w = Returned tt w
  | Some t =>
      ((∀ k v, t !! k = Some v →
               is_exited (apply_wakes (wakes w) (heap w)) v = true) →
       ∃ n d,
         (n ≤ length (wakes w))%nat ∧
         mono_thread_cleanup w
         = Returned tt
             (mkWorld
                (free_all (map_to_list t).*2
                   (apply_wakes (take n (wakes w)) (heap w)))
                None (main_thread w) (specific w)
                (log w ++ d ++ (EvFree <$> (map_to_list t).*2))
                (drop n (wakes w)) (os w)) ∧
         (∀ k v, t !! k = Some v →
                 is_exited (apply_wakes (take n (wakes w)) (heap w)) v = true ∧
                 EvLock v ∈ d ∧ EvUnlock v ∈ d ∧
                 free_all (map_to_list t).*2
                   (apply_wakes (take n (wakes w)) (heap w)) !! v = None) ∧
         (n = 0%nat ∨
          ∃ k v, t !! k = Some v ∧
                 is_exited (apply_wakes (take (n - 1) (wakes w)) (heap w)) v
                 = false) ∧
         forallb is_untimed_join_event d = true ∧ waits d = n ∧
         (∀ p, (∀ k, t !! k ≠ Some p) →
               free_all (map_to_list t).*2
                 (apply_wakes (take n (wakes w)) (heap w)) !! p
               = apply_wakes (take n (wakes w)) (heap w) !! p)) ∧
      ((∃ k v, t !! k = Some v ∧
               is_exited (apply_wakes (wakes w) (heap w)) v = false) →
       ∃ d,
         mono_thread_cleanup w
         = Blocked
             (mkWorld (apply_wakes (wakes w) (heap w)) (Some t)
                (main_thread w) (specific w) (log w ++ d) [] (os w)) ∧
         forallb is_untimed_join_event d = true ∧
         waits d = S (length (wakes w)))
  end.
Proof.
  intros Hwf Hs. destruct (threads w) as [t|] eqn:Ht.
  2:{ unfold mono_thread_cleanup. cbv [mbind M_bind get_world].
      by rewrite Ht. }
  pose proof (registry_wf_NoDup w t Hwf Ht) as Hnd.
  assert (Halloc : ∀ v, v ∈ (map_to_list t).*2 → is_Some (heap w !! v)).
  { intros v (k&Hk)%elem_of_values.
    destruct (Hwf t k v Ht Hk) as (ti&->&_). eauto. }
  destruct w as [h t' m sp l s o].
  cbn [threads heap wakes log main_thread specific os] in *. subst t'.
  unfold mono_thread_cleanup, g_hash_table_foreach, g_hash_table_foreach_remove.
  cbv [mbind M_bind get_world threads].
  destruct (join_pass (map_to_list t) h (Some t) m sp l s o Halloc Hs) as
    [(n&d&Hn&->&Hex&Hmin&Hd&Hw)|(d&v&->&Hv&He&Hd&Hw)].
  - split.
    + intros _. exists n, d. rewrite free_pass; [|done|].
      2:{ intros v Hv. eapply heap_grows_allocated; [apply apply_wakes_grows|].
          by apply Halloc. }
      cbv [set_threads]. rewrite <- app_assoc.
      split_and!; try done.
      * intros k v Hk.
        destruct (Hex v) as (?&?&?); [apply elem_of_values; eauto|].
        split_and!; try done. rewrite free_all_lookup.
        rewrite decide_True; [done|]. apply elem_of_values. eauto.
      * destruct Hmin as [?|(v&(k&Hk)%elem_of_values&He)]; [by left|].
        right. eauto.
      * intros p Hp. rewrite free_all_lookup.
        rewrite decide_False; [done|]. intros (k&Hk)%elem_of_values.
        by apply (Hp k).
    + intros (k&v&Hk&He). exfalso.
      destruct (Hex v) as (He'&_); [apply elem_of_values; eauto|].
      eapply is_exited_grows in He'; [|apply (apply_wakes_grows (drop n s))].
      rewrite apply_wakes_take_drop in He'. congruence.
  - split.
    + intros Hall. exfalso. apply elem_of_values in Hv as (k&Hk).
      specialize (Hall k v Hk). congruence.
    + intros _. by exists d.
Qed.

(** ** The exit protocol *)

(** C7, as the code has it.  A started handle has [exiting] clear, and
    the starting thread's log ends with the creation of the worker,
    [pthread_detach] and the write of the owner into [object].  The
    worker, run on the handle while [exiting] is clear, calls the
    callable; when that returns it takes the mutex, writes [status],
    writes [exiting] once, signals, releases the mutex and exits, and the
    handle differs from before in [status] and [exiting] alone; when the
    callable does not return the worker writes nothing. *)
Theorem worker_announces_exit_once w this start :
  os_method_ptr (os w) start ≠ NULL → (os_create (os w)).1 = 0 →
  os_malloc (os w) ≠ NULL →
  ∃ w' ti,
    ves_icall_System_Threading_Thread_Start_internal this start w
      = Returned (id ti) w' ∧
    heap w' !! os_malloc (os w) = Some ti ∧ exiting ti = false ∧
    log w' = log w
             ++ create_log (os_malloc (os w)) (os_method_ptr (os w) start) NULL
             ++ [EvDetach (id ti); EvWrite (os_malloc (os w)) Fobject this] ∧
    ∀ w2 ti2,
      heap w2 !! os_malloc (os w) = Some ti2 → exiting ti2 = false →
      match os_run (os w2) (start_routine ti2) (arg ti2) with
      | Some st =>
          ∃ w3,
            timed_thread_start_routine (os_malloc (os w)) w2 = Exited w3 ∧
            log w3 = log w2
                     ++ [EvOnce; EvSetSpecific (os_malloc (os w));
                         EvCall (start_routine ti2) (arg ti2)]
                     ++ exit_log (os_malloc (os w)) st ∧
            heap w3 = heap (worker_exit (os_malloc (os w)) st w2) ∧
            heap w3 !! os_malloc (os w) = Some (announce st ti2) ∧
            exiting (announce st ti2) = true ∧
            status (announce st ti2) = st ∧
            grows ti2 (announce st ti2)
      | None =>
          ∃ w3,
            timed_thread_start_routine (os_malloc (os w)) w2 = Blocked w3 ∧
            log w3 = log w2
                     ++ [EvOnce; EvSetSpecific (os_malloc (os w));
                         EvCall (start_routine ti2) (arg ti2)] ∧
            heap w3 = heap w2
      end.
Proof.
  destruct w as [h t m sp l s o]. cbn [heap os log threads]. intros Hf Hc Hp.
  eexists _, (set_field Fobject this
                (created (os_create o).2 (os_method_ptr o start) NULL)).
  rewrite Start_ok by done. split_and!; try reflexivity.
  - apply lookup_insert_eq.
  - intros [h2 t2 m2 sp2 l2 s2 o2] ti2 Hh2 He2. cbn [heap os log] in *.
    destruct (os_run o2 (start_routine ti2) (arg ti2)) as [st|] eqn:Hrun.
    + eexists. erewrite trampoline_returns by done.
      split_and!; try reflexivity.
      * cbn [heap]. symmetry.
        by apply (worker_exit_heap _ _ (mkWorld h2 t2 m2 sp2 l2 s2 o2)).
      * apply lookup_insert_eq.
      * apply announce_grows.
    + eexists. erewrite trampoline_stuck by done. done.
Qed.

Lemma worker_announces_exit_witness :
  ∃ w' ti,
    ves_icall_System_Threading_Thread_Start_internal 5 77 w_idle
      = Returned (id ti) w' ∧
    heap w' !! 4096 = Some ti ∧ exiting ti = false ∧
    log w' = create_log 4096 9000 NULL
             ++ [EvDetach (id ti); EvWrite 4096 Fobject 5] ∧
    ∀ w2 ti2,
      heap w2 !! 4096 = Some ti2 → exiting ti2 = false →
      match os_run (os w2) (start_routine ti2) (arg ti2) with
      | Some st =>
          ∃ w3,
            timed_thread_start_routine 4096 w2 = Exited w3 ∧
            log w3 = log w2
                     ++ [EvOnce; EvSetSpecific 4096;
                         EvCall (start_routine ti2) (arg ti2)]
                     ++ exit_log 4096 st ∧
            heap w3 = heap (worker_exit 4096 st w2) ∧
            heap w3 !! 4096 = Some (announce st ti2) ∧
            exiting (announce st ti2) = true ∧
            status (announce st ti2) = st ∧
            grows ti2 (announce st ti2)
      | None =>
          ∃ w3,
            timed_thread_start_routine 4096 w2 = Blocked w3 ∧
            log w3 = log w2
                     ++ [EvOnce; EvSetSpecific 4096;
                         EvCall (start_routine ti2) (arg ti2)] ∧
            heap w3 = heap w2
      end.
Proof.
  refine (worker_announces_exit_once w_idle 5 77 _ _ _).
  - discriminate.
  - reflexivity.
  - discriminate.
Defined.

(** C7, as the specification states it, fails: the starting thread
    writes [object] after [pthread_create], so in the schedule that lets
    the worker reach its callable right after its creation the write of
    [object] comes after the call. *)
Lemma object_written_after_call :
  ∃ w1 w2,
    ves_icall_System_Threading_Thread_Start_internal 5 77 w_idle
      = Returned 2051 w1 ∧
    timed_thread_start_routine 4096 (with_log [] w1) = Exited w2 ∧
    let tr := interleave (replicate 8 Starter ++ replicate 3 Worker)
                (log w1) (log w2) in
    created_first 4096 tr = true ∧
    only_exit_writes_after_call 4096 tr = false ∧
    (Starter, EvWrite 4096 Fobject 5) ∈ drop 11 tr ∧
    tr !! 10%nat = Some (Worker, EvCall 9000 NULL).
Proof.
  eexists _, _. split; [vm_compute; reflexivity|].
  split; [vm_compute; reflexivity|].
  cbn [log with_log]. split_and!; [vm_compute; reflexivity..| |reflexivity].
  vm_compute. apply elem_of_cons. right. apply elem_of_cons. by left.
Qed.

(** ** The statements at work *)

Example start_demo :
  ves_icall_System_Threading_Thread_Start_internal 5 77 w_idle
  = Returned 2051
      (with_log (create_log 4096 9000 NULL
                 ++ [EvDetach 2051; EvWrite 4096 Fobject 5]) (w_running [])).
Proof. vm_compute. reflexivity. Qed.

Example current_thread_demo :
  ves_icall_System_Threading_Thread_CurrentThread_internal (w_running [])
  = Returned 1 (w_running []).
Proof. vm_compute. reflexivity. Qed.

Example join_blocked_demo :
  ves_icall_System_Threading_Thread_Join_internal 5 0 2051
    (w_running [mkWake 0 []])
  = Blocked (with_log [EvLock 4096; EvCondWait 4096; EvCondWait 4096]
               (w_running [])).
Proof. vm_compute. reflexivity. Qed.

Example cleanup_demo :
  mono_thread_cleanup (w_running [mkWake 0 []; mkWake 0 [(4096, 42)]])
  = Returned tt
      (with_log [EvLock 4096; EvCondWait 4096; EvCondWait 4096;
                 EvUnlock 4096; EvFree 4096] w_idle).
Proof. vm_compute. reflexivity. Qed.

Lemma start_outcomes_witness :
  ∃ w' ti,
    ves_icall_System_Threading_Thread_Start_internal 5 77 w_idle
      = Returned 2051 w' ∧
    ti = {| id := 2051; object := 5; start_routine := 9000; arg := NULL;
            status := NULL; exiting := false |} ∧
    heap w' = <[4096 := ti]> ∅ ∧
    threads w' = Some (<[2051 := 4096]> ∅) ∧
    registered w' 2051 4096 ti.
Proof.
  refine (proj2 (proj2 (start_outcomes w_idle 5 77 _ _)) _ _).
  - reflexivity.
  - discriminate.
  - discriminate.
  - reflexivity.
Defined.

Lemma start_passes_null_witness :
  ∃ w' ti,
    ves_icall_System_Threading_Thread_Start_internal 5 77 w_idle
      = Returned (id ti) w' ∧
    heap w' !! 4096 = Some ti ∧
    start_routine ti = 9000 ∧ arg ti = NULL ∧
    EvWrite 4096 Farg NULL ∈ log w' ∧
    ∀ w2 ti2,
      heap w2 !! 4096 = Some ti2 → grows ti ti2 →
      ∃ w3 tail,
        (timed_thread_start_routine 4096 w2 = Exited w3 ∨
         timed_thread_start_routine 4096 w2 = Blocked w3) ∧
        log w3 = log w2 ++ EvOnce :: EvSetSpecific 4096 ::
                   EvCall 9000 NULL :: tail ∧
        filter is_call tail = [].
Proof.
  refine (start_passes_null w_idle 5 77 _ _).
  - discriminate.
  - reflexivity.
Defined.

Lemma cleanup_drains_witness :
  (∃ n d,
     (n ≤ 2)%nat ∧
     mono_thread_cleanup w_exits_later
     = Returned tt
         (mkWorld
            (free_all [4096]
               (apply_wakes (take n (wakes w_exits_later))
                  (heap w_exits_later)))
            None 1 NULL (d ++ [EvFree 4096])
            (drop n (wakes w_exits_later)) os_demo) ∧
     (∀ k v, ({[2051 := 4096]} : gmap Z Z) !! k = Some v →
             is_exited
               (apply_wakes (take n (wakes w_exits_later))
                  (heap w_exits_later)) v = true ∧
             EvLock v ∈ d ∧ EvUnlock v ∈ d ∧
             free_all [4096]
               (apply_wakes (take n (wakes w_exits_later))
                  (heap w_exits_later)) !! v = None) ∧
     (n = 0%nat ∨
      ∃ k v, ({[2051 := 4096]} : gmap Z Z) !! k = Some v ∧
             is_exited
               (apply_wakes (take (n - 1) (wakes w_exits_later))
                  (heap w_exits_later)) v = false) ∧
     forallb is_untimed_join_event d = true ∧ waits d = n ∧
     (∀ p, (∀ k, ({[2051 := 4096]} : gmap Z Z) !! k ≠ Some p) →
           free_all [4096]
             (apply_wakes (take n (wakes w_exits_later))
                (heap w_exits_later)) !! p
           = apply_wakes (take n (wakes w_exits_later))
               (heap w_exits_later) !! p)) ∧
  (∃ d,
     mono_thread_cleanup (w_running [mkWake 0 []])
     = Blocked
         (mkWorld {[4096 := handle_demo]} (Some {[2051 := 4096]}) 1 NULL d []
            os_demo) ∧
     forallb is_untimed_join_event d = true ∧ waits d = 2%nat).
Proof.
  split.
  - refine (proj1 (cleanup_drains w_exits_later _ _) _).
    + intros t k v [= <-] Hk. apply lookup_singleton_Some in Hk as [<- <-].
      exists handle_demo. split; reflexivity.
    + repeat constructor.
    + intros k v Hk. apply lookup_singleton_Some in Hk as [<- <-].
      reflexivity.
  - refine (proj2 (cleanup_drains (w_running [mkWake 0 []]) _ _) _).
    + intros t k v [= <-] Hk. apply lookup_singleton_Some in Hk as [<- <-].
      exists handle_demo. split; reflexivity.
    + repeat constructor.
    + exists 2051, 4096. split; reflexivity.
Defined.

(** * Further properties of the code *)

(** ** The join on any run of returns *)

Lemma apply_wakes_cons s wk h :
  apply_wakes (wk :: s) h = apply_wakes s (apply_exits (wk_exits wk) h).
Proof. done. Qed.

(** The loop on any run of returns. *)
Lemma join_wait_any s : ∀ h t m sp l o turns thread timeout r,
  is_Some (h !! thread) → (length s < turns)%nat →
  (∃ n r' ti',
     join_wait turns thread timeout r (mkWorld h t m sp l s o)
       = Returned r'
           (mkWorld (apply_wakes (take n s) h) t m sp
              (l ++ replicate n (wait_event thread timeout)) (drop n s) o) ∧
     (n ≤ length s)%nat ∧
     apply_wakes (take n s) h !! thread = Some ti' ∧
     (r' = 0 → exiting ti' = true) ∧
     (r' ≠ 0 → (n = 0%nat ∧ r' = r) ∨
               ∃ wk, wk ∈ take n s ∧ wk_ret wk = r')) ∨
  (∃ ti',
     join_wait turns thread timeout r (mkWorld h t m sp l s o)
       = Blocked
           (mkWorld (apply_wakes s h) t m sp
              (l ++ replicate (S (length s)) (wait_event thread timeout)) [] o) ∧
     apply_wakes s h !! thread = Some ti' ∧ exiting ti' = false).
Proof.
  induction s as [|wk s IH]; intros h t m sp l o turns thread timeout r [ti Hh] Hturns.
  - destruct turns as [|turns]; [cbn in Hturns; lia|].
    cbn [join_wait]. erewrite load_bind by exact Hh.
    destruct ((r =? 0) && negb (exiting ti)) eqn:Hc.
    + right. exists ti. apply andb_true_iff in Hc as [_ He].
      apply negb_true_iff in He. split_and!; [|done..].
      destruct timeout; run; by cbn.
    + left. exists 0%nat, r, ti. cbn. rewrite app_nil_r.
      split_and!; [done|lia|done| |auto].
      intros ->. cbn in Hc. by apply negb_false_iff in Hc.
  - destruct turns as [|turns]; [cbn in Hturns; lia|].
    cbn [join_wait]. erewrite load_bind by exact Hh.
    destruct ((r =? 0) && negb (exiting ti)) eqn:Hc.
    + destruct (apply_exits_lookup (wk_exits wk) h thread ti Hh) as (ti1&Hh1&_&_).
      destruct (IH (apply_exits (wk_exits wk) h) t m sp
                  (l ++ [wait_event thread timeout]) o turns thread timeout
                  (wk_ret wk)) as
        [(n&r'&ti'&Hj&Hn&Hti'&H0&Hne)|(ti'&Hj&Hti'&He')];
        [eauto|cbn in Hturns; lia| |].
      * left. exists (S n), r', ti'. split_and!.
        -- destruct timeout; cbn [wait_event] in *; run; rewrite Hj;
             cbn [take drop replicate];
             rewrite apply_wakes_cons, <- app_assoc; done.
        -- cbn; lia.
        -- done.
        -- done.
        -- intros Hr. right. destruct (Hne Hr) as [[-> ->]|(wk'&Hin&Hwk')].
           ++ exists wk. split; [|done]. cbn. apply elem_of_cons. by left.
           ++ exists wk'. split; [|done]. cbn. apply elem_of_cons. by right.
      * right. exists ti'. split_and!; [|done..].
        destruct timeout; cbn [wait_event] in *; run; rewrite Hj;
          cbn [length replicate]; rewrite <- app_assoc; done.
    + left. exists 0%nat, r, ti. cbn. rewrite app_nil_r.
      split_and!; [done|lia|done| |auto].
      intros ->. cbn in Hc. by apply negb_false_iff in Hc.
Qed.

(** [timed_thread_join] on any run of returns, world given by fields. *)
Lemma timed_join_any h t m sp l s o thread timeout want :
  is_Some (h !! thread) →
  (∃ n r ti',
     timed_thread_join thread timeout want (mkWorld h t m sp l s o)
       = Returned (r, if (r =? 0) && want then Some (status ti') else None)
           (mkWorld (apply_wakes (take n s) h) t m sp
              (l ++ EvLock thread :: replicate n (wait_event thread timeout)
                 ++ [EvUnlock thread]) (drop n s) o) ∧
     (n ≤ length s)%nat ∧
     apply_wakes (take n s) h !! thread = Some ti' ∧
     (r = 0 → exiting ti' = true) ∧
     (r ≠ 0 → ∃ wk, wk ∈ take n s ∧ wk_ret wk = r)) ∨
  (∃ ti',
     timed_thread_join thread timeout want (mkWorld h t m sp l s o)
       = Blocked
           (mkWorld (apply_wakes s h) t m sp
              (l ++ EvLock thread ::
                 replicate (S (length s)) (wait_event thread timeout)) [] o) ∧
     apply_wakes s h !! thread = Some ti' ∧ exiting ti' = false).
Proof.
  intros Hh.
  cbv [timed_thread_join pthread_mutex_lock emit get_world mbind M_bind with_log
       heap threads main_thread specific log wakes os].
  destruct (join_wait_any s h t m sp (l ++ [EvLock thread]) o (S (length s))
              thread timeout 0 Hh) as
    [(n&r&ti'&->&Hn&Hti'&H0&Hne)|(ti'&->&Hti'&He')]; [lia| |].
  - left. exists n, r, ti'. split_and!; try done.
    + cbv [pthread_mutex_unlock emit load mbind M_bind with_log heap threads
           main_thread specific log wakes os mret M_ret].
      rewrite Hti'. rewrite <- !app_assoc. cbn [app].
      destruct (r =? 0) eqn:Er.
      * apply Z.eqb_eq in Er. rewrite (H0 Er). cbn. by destruct want.
      * done.
    + intros Hr. destruct (Hne Hr) as [[_ ?]|?]; [congruence|done].
  - right. exists ti'. split_and!; try done.
    by rewrite <- !app_assoc.
Qed.

(** X4.  [timed_thread_join] on an allocated handle, whatever the waits
    return: it returns or stays blocked, never anything else.  When it
    returns it has consumed some of the returns of the wait and logged a
    lock, one wait per return consumed and an unlock; it has left the
    table alone; a result of 0 means that [exiting] is set in the handle,
    and the status handed out is the one in the handle; any other result
    is the code of one of the waits and no status is handed out.  It
    stays blocked only with every return consumed and [exiting] still
    clear. *)
Theorem timed_join_sound w thread timeout want :
  is_Some (heap w !! thread) →
  match timed_thread_join thread timeout want w with
  | Returned (r, st) w' =>
      ∃ n ti',
        (n ≤ length (wakes w))%nat ∧
        wakes w' = drop n (wakes w) ∧
        heap w' = apply_wakes (take n (wakes w)) (heap w) ∧
        threads w' = threads w ∧
        log w' = log w ++ EvLock thread ::
                   replicate n (wait_event thread timeout)
                   ++ [EvUnlock thread] ∧
        heap w' !! thread = Some ti' ∧
        (r = 0 → exiting ti' = true ∧
                 st = if want then Some (status ti') else None) ∧
        (r ≠ 0 → st = None ∧ ∃ wk, wk ∈ take n (wakes w) ∧ wk_ret wk = r)
  | Blocked w' =>
      wakes w' = [] ∧ threads w' = threads w ∧
      ∃ ti', heap w' !! thread = Some ti' ∧ exiting ti' = false
  | Exited _ | Aborted => False
  end.
Proof.
  destruct w as [h t m sp l s o]. cbn [heap wakes threads log]. intros Hh.
  destruct (timed_join_any h t m sp l s o thread timeout want Hh) as
    [(n&r&ti'&->&Hn&Hti'&H0&Hne)|(ti'&->&Hti'&He')].
  - exists n, ti'. cbn [heap wakes threads log]. split_and!; try done.
    + intros ->. split; [by apply H0|done].
    + intros Hr. split; [|by apply Hne].
      apply Z.eqb_neq in Hr. by rewrite Hr.
  - cbn [heap wakes threads]. eauto.
Qed.

Lemma grows_id ti ti' : grows ti ti' → id ti' = id ti.
Proof. by intros (?&_). Qed.

Lemma apply_wakes_lookup_grows s h (p : Z) ti ti' :
  h !! p = Some ti → apply_wakes s h !! p = Some ti' → grows ti ti'.
Proof.
  intros Hh Hh'. pose proof (apply_wakes_grows s h p) as Hg.
  rewrite Hh in Hg. destruct Hg as (ti2&E&Hg). congruence.
Qed.

(** Past the two guards, for any identity the lookup finds a handle for. *)
Lemma Join_found_at h t m sp l s o this ms tid thread :
  t !! g_int tid = Some thread → thread ≠ NULL → os_self o ≠ tid →
  ves_icall_System_Threading_Thread_Join_internal this ms tid
    (mkWorld h (Some t) m sp l s o)
  = (if ms =? 0 then
      r ← timed_thread_join thread None false;
      if r.1 =? 0 then
        delete_thread thread;;
        mret true
      else
        g_warning "Join error: %s";;
        mret false
    else
      let divvy := div ms 1000 in
      now ← time;
      let timeout := {| tv_sec := now + quot divvy;
                        tv_nsec := rem divvy * 1000 |} in
      r ← timed_thread_join thread (Some timeout) false;
      if r.1 =? 0 then
        delete_thread thread;;
        mret true
      else
        (if negb (r.1 =? ETIMEDOUT) then g_warning "Timed join error: %s"
         else mret tt);;
        mret false) (mkWorld h (Some t) m sp l s o).
Proof.
  intros Hl Hn Hself.
  unfold ves_icall_System_Threading_Thread_Join_internal.
  cbv [mbind M_bind pthread_self lookup_thread get_world mret M_ret os threads].
  apply Z.eqb_neq in Hself, Hn. rewrite Hself, Hl.
  cbv [from_option Datatypes.id]. by rewrite Hn.
Qed.

(** Every way [Join_internal] can go on an identity the lookup finds a
    handle for. *)
Lemma Join_cases h t m sp l s o this ms tid thread ti :
  t !! g_int tid = Some thread → thread ≠ NULL → h !! thread = Some ti →
  g_int (id ti) = g_int tid → os_self o ≠ tid →
  (∃ n ti' d,
     ves_icall_System_Threading_Thread_Join_internal this ms tid
       (mkWorld h (Some t) m sp l s o)
     = Returned true
         (mkWorld (delete thread (apply_wakes (take n s) h))
            (Some (delete (g_int tid) t)) m sp (l ++ d) (drop n s) o) ∧
     (n ≤ length s)%nat ∧
     apply_wakes (take n s) h !! thread = Some ti' ∧ exiting ti' = true) ∨
  (∃ n ti' d wk,
     ves_icall_System_Threading_Thread_Join_internal this ms tid
       (mkWorld h (Some t) m sp l s o)
     = Returned false
         (mkWorld (apply_wakes (take n s) h) (Some t) m sp (l ++ d)
            (drop n s) o) ∧
     (n ≤ length s)%nat ∧
     apply_wakes (take n s) h !! thread = Some ti' ∧
     wk ∈ take n s ∧ wk_ret wk ≠ 0) ∨
  (∃ ti' d,
     ves_icall_System_Threading_Thread_Join_internal this ms tid
       (mkWorld h (Some t) m sp l s o)
     = Blocked (mkWorld (apply_wakes s h) (Some t) m sp (l ++ d) [] o) ∧
     apply_wakes s h !! thread = Some ti' ∧ exiting ti' = false).
Proof.
  intros Hl Hn Hh Hid Hself.
  rewrite (Join_found_at h t m sp l s o this ms tid thread Hl Hn Hself).
  assert (Hcases : ∀ timeout (warn : Z → M unit) (lw : Z → list event),
    (∀ c h0 l0 s0, warn c (mkWorld h0 (Some t) m sp l0 s0 o)
                   = Returned tt (mkWorld h0 (Some t) m sp (l0 ++ lw c) s0 o)) →
    let prog : M bool :=
      r ← timed_thread_join thread timeout false;
      if r.1 =? 0 then delete_thread thread;; mret true
      else warn r.1;; mret false in
    (∃ n ti' d,
       prog (mkWorld h (Some t) m sp l s o)
       = Returned true
           (mkWorld (delete thread (apply_wakes (take n s) h))
              (Some (delete (g_int tid) t)) m sp (l ++ d) (drop n s) o) ∧
       (n ≤ length s)%nat ∧
       apply_wakes (take n s) h !! thread = Some ti' ∧ exiting ti' = true) ∨
    (∃ n ti' d wk,
       prog (mkWorld h (Some t) m sp l s o)
       = Returned false
           (mkWorld (apply_wakes (take n s) h) (Some t) m sp (l ++ d)
              (drop n s) o) ∧
       (n ≤ length s)%nat ∧
       apply_wakes (take n s) h !! thread = Some ti' ∧
       wk ∈ take n s ∧ wk_ret wk ≠ 0) ∨
    (∃ ti' d,
       prog (mkWorld h (Some t) m sp l s o)
       = Blocked (mkWorld (apply_wakes s h) (Some t) m sp (l ++ d) [] o) ∧
       apply_wakes s h !! thread = Some ti' ∧ exiting ti' = false)).
  { intros timeout warn lw Hwarn prog. subst prog. cbv [mbind M_bind].
    destruct (timed_join_any h (Some t) m sp l s o thread timeout false)
      as [(n&r&ti'&->&Hlen&Hti'&H0&Hne)|(ti'&->&Hti'&He')]; [eauto| |].
    - cbn [fst]. destruct (r =? 0) eqn:Er.
      + apply Z.eqb_eq in Er. left.
        erewrite delete_thread_found by done. cbv [mret M_ret].
        rewrite (grows_id ti ti') by (by eapply apply_wakes_lookup_grows).
        rewrite Hid. eexists n, ti', _. split_and!; [|done|done|by apply H0].
        by rewrite <- app_assoc.
      + apply Z.eqb_neq in Er. right. left.
        destruct (Hne Er) as (wk&Hin&Hwk).
        rewrite Hwarn. cbv [mret M_ret].
        eexists n, ti', _, wk. split_and!; [|done|done|done|congruence].
        by rewrite <- !app_assoc.
    - right. right. eexists ti', _. by split_and!. }
  destruct (ms =? 0).
  - exact (Hcases None (λ _, g_warning "Join error: %s")
             (λ _, [EvWarning "Join error: %s"])
             (λ _ _ _ _, eq_refl)).
  - refine (Hcases (Some (join_deadline (os_time o) ms))
              (λ c, if negb (c =? ETIMEDOUT)
                    then g_warning "Timed join error: %s" else mret tt)
              (λ c, if negb (c =? ETIMEDOUT)
                    then [EvWarning "Timed join error: %s"] else []) _).
    intros c h0 l0 s0. destruct (negb (c =? ETIMEDOUT)); run; [done|].
    by rewrite app_nil_r.
Qed.

(** ** Joining by identity, in general *)

(** X5.  [Join_internal] on a registered identity other than the
    caller's, for every [ms] and whatever the waits return.  [TRUE] is
    returned only when the handle had [exiting] set, and then the handle
    is freed and its entry removed.  [FALSE] is returned only after a
    wait returned a code other than 0, and then the table is unchanged
    and the identity is still registered to the same handle.  Blocked
    means that all returns are consumed and the worker still runs.  The
    assertions of [delete_thread] never fail. *)
Theorem Join_true_only_after_exit w this ms tid thread ti :
  registered w tid thread ti → os_self (os w) ≠ tid →
  match ves_icall_System_Threading_Thread_Join_internal this ms tid w with
  | Returned true w' =>
      ∃ n ti',
        (n ≤ length (wakes w))%nat ∧
        apply_wakes (take n (wakes w)) (heap w) !! thread = Some ti' ∧
        exiting ti' = true ∧
        heap w' = delete thread (apply_wakes (take n (wakes w)) (heap w)) ∧
        threads w' = delete (g_int tid) <$> threads w ∧
        wakes w' = drop n (wakes w)
  | Returned false w' =>
      ∃ n ti' wk,
        wk ∈ take n (wakes w) ∧ wk_ret wk ≠ 0 ∧
        heap w' = apply_wakes (take n (wakes w)) (heap w) ∧
        threads w' = threads w ∧
        registered w' tid thread ti' ∧ grows ti ti' ∧
        wakes w' = drop n (wakes w)
  | Blocked w' =>
      wakes w' = [] ∧ threads w' = threads w ∧
      ∃ ti', registered w' tid thread ti' ∧ grows ti ti' ∧ exiting ti' = false
  | Exited _ | Aborted => False
  end.
Proof.
  intros (t&Ht&Hl&Hn&Hh&Hid) Hself.
  destruct w as [h t' m sp l s o]. cbn [heap threads wakes os] in *. subst t'.
  destruct (Join_cases h t m sp l s o this ms tid thread ti Hl Hn Hh
              (f_equal g_int Hid) Hself)
    as [(n&ti'&d&->&Hlen&Hti'&He)|[(n&ti'&d&wk&->&Hlen&Hti'&Hin&Hwk)|
        (ti'&d&->&Hti'&He)]].
  - exists n, ti'. by split_and!.
  - pose proof (apply_wakes_lookup_grows _ _ _ _ _ Hh Hti') as Hg.
    exists n, ti', wk. split_and!; try done.
    exists t. split_and!; try done. rewrite (grows_id _ _ Hg). done.
  - pose proof (apply_wakes_lookup_grows _ _ _ _ _ Hh Hti') as Hg.
    split_and!; try done. exists ti'. split_and!; try done.
    exists t. split_and!; try done. rewrite (grows_id _ _ Hg). done.
Qed.

Lemma registry_wf_fields h t m sp l s o :
  registry_wf (mkWorld h (Some t) m sp l s o) ↔
  ∀ k v, t !! k = Some v → ∃ ti, h !! v = Some ti ∧ g_int (id ti) = k.
Proof.
  split.
  - intros Hwf k v Hk. by apply (Hwf t k v).
  - intros Hwf t' k v [= <-] Hk. by apply Hwf.
Qed.

Lemma wf_fields_grows (h h' : gmap Z ThreadInfo) (t : gmap Z Z) :
  heap_grows h h' →
  (∀ k v, t !! k = Some v → ∃ ti, h !! v = Some ti ∧ g_int (id ti) = k) →
  ∀ k v, t !! k = Some v → ∃ ti, h' !! v = Some ti ∧ g_int (id ti) = k.
Proof.
  intros Hg Hwf k v Hk. destruct (Hwf k v Hk) as (ti&Hh&Hid).
  specialize (Hg v). rewrite Hh in Hg. destruct Hg as (ti'&Hh'&Hg).
  exists ti'. split; [done|]. by rewrite (grows_id _ _ Hg).
Qed.

(** X6.  [Join_internal] keeps the table well formed: from a table whose
    every entry leads to an allocated handle whose [id] reads as the
    key, any call, on any identity, with any [ms] and any returns of the
    wait, ends (returned or blocked) in such a table again, and never in
    undefined behaviour. *)
Theorem Join_preserves_wf w this ms tid :
  registry_wf w →
  match ves_icall_System_Threading_Thread_Join_internal this ms tid w with
  | Returned _ w' => registry_wf w'
  | Blocked w' => registry_wf w'
  | Exited _ | Aborted => False
  end.
Proof.
  intros Hwf. destruct w as [h t m sp l s o].
  destruct (decide (os_self o = tid)) as [Hself|Hself].
  { unfold ves_icall_System_Threading_Thread_Join_internal. run.
    apply Z.eqb_eq in Hself. rewrite Hself. exact Hwf. }
  destruct t as [t|].
  2:{ unfold ves_icall_System_Threading_Thread_Join_internal. run.
      apply Z.eqb_neq in Hself. rewrite Hself. cbn. by intros ???. }
  destruct (t !! g_int tid) as [thread|] eqn:Hl.
  2:{ unfold ves_icall_System_Threading_Thread_Join_internal. run.
      apply Z.eqb_neq in Hself. rewrite Hself, Hl. cbn. exact Hwf. }
  destruct (decide (thread = NULL)) as [->|Hn].
  { unfold ves_icall_System_Threading_Thread_Join_internal. run.
    apply Z.eqb_neq in Hself. rewrite Hself, Hl. cbn. exact Hwf. }
  pose proof (proj1 (registry_wf_fields h t m sp l s o) Hwf) as Hf.
  clear Hwf. rename Hf into Hwf.
  destruct (Hwf (g_int tid) thread Hl) as (ti&Hh&Hid).
  destruct (Join_cases h t m sp l s o this ms tid thread ti)
    as [(n&ti'&d&->&Hlen&Hti'&He)|[(n&ti'&d&wk&->&Hlen&Hti'&Hin&Hwk)|
        (ti'&d&->&Hti'&He)]]; try done.
  - apply registry_wf_fields. intros k v Hk.
    apply lookup_delete_Some in Hk as [Hne Hk].
    destruct (wf_fields_grows _ _ _ (apply_wakes_grows (take n s) h) Hwf k v Hk)
      as (tiv&Hv&Hidv).
    exists tiv. split; [|done]. rewrite lookup_delete_ne; [done|].
    intros <-. rewrite Hti' in Hv. injection Hv as <-.
    pose proof (apply_wakes_lookup_grows _ _ _ _ _ Hh Hti') as Hg.
    rewrite (grows_id _ _ Hg) in Hidv. congruence.
  - apply registry_wf_fields.
    by apply (wf_fields_grows _ _ _ (apply_wakes_grows (take n s) h)).
  - apply registry_wf_fields.
    by apply (wf_fields_grows _ _ _ (apply_wakes_grows s h)).
Qed.

(** The lookup that fails, for the proofs below. *)
Lemma Join_not_found w this ms tid :
  os_self (os w) ≠ tid →
  (∀ thread, handle_of w tid = Some thread → thread = NULL) →
  ves_icall_System_Threading_Thread_Join_internal this ms tid w
  = Returned false
      (with_log (log w ++ [EvWarning "Can't find thread id %ld"]) w).
Proof.
  intros Hself Hnone. destruct w as [h t m sp l s o].
  unfold handle_of in Hnone. cbn [os threads] in *.
  unfold ves_icall_System_Threading_Thread_Join_internal. run.
  apply Z.eqb_neq in Hself. rewrite Hself.
  destruct t as [t|]; [|done]. cbn in Hnone.
  destruct (t !! g_int tid) as [thread|] eqn:Hl; [|done].
  by rewrite (Hnone thread eq_refl).
Qed.

(** X1.  Joining an identity that is not the caller's and for which the
    lookup of the table finds no handle (no table at all, no key that
    agrees with the identity in its low 32 bits, or a [NULL] value)
    returns [FALSE] after the warning alone, for every [ms]: nothing is
    locked, waited for, removed or freed. *)
Theorem Join_unknown_identity w this ms tid :
  os_self (os w) ≠ tid →
  (∀ thread, handle_of w tid = Some thread → thread = NULL) →
  ves_icall_System_Threading_Thread_Join_internal this ms tid w
  = Returned false
      (with_log (log w ++ [EvWarning "Can't find thread id %ld"]) w).
Proof.
  intros Hself Hnone. destruct w as [h t m sp l s o].
  unfold handle_of in Hnone. cbn [os threads] in *.
  unfold ves_icall_System_Threading_Thread_Join_internal. run.
  apply Z.eqb_neq in Hself. rewrite Hself.
  destruct t as [t|]; [|done]. cbn in Hnone.
  destruct (t !! g_int tid) as [thread|] eqn:Hl; [|done].
  by rewrite (Hnone thread eq_refl).
Qed.

(** X2.  [CurrentThread_internal] changes nothing.  When the lookup of
    the caller's identity finds a handle, which it does for a registered
    caller and for any caller whose identity agrees with a registered
    one in its low 32 bits, the call returns the [object] of that
    handle; when it finds none (or there is no table) the call returns
    [main_thread]. *)
Theorem CurrentThread_owner w :
  (∀ thread ti,
     handle_of w (os_self (os w)) = Some thread → thread ≠ NULL →
     heap w !! thread = Some ti →
     ves_icall_System_Threading_Thread_CurrentThread_internal w
     = Returned (object ti) w) ∧
  ((∀ thread, handle_of w (os_self (os w)) = Some thread → thread = NULL) →
   ves_icall_System_Threading_Thread_CurrentThread_internal w
   = Returned (main_thread w) w).
Proof.
  destruct w as [h t m sp l s o]. unfold handle_of.
  cbn [os threads main_thread heap]. split.
  - intros thread ti Hl Hn Hh.
    destruct t as [t|]; [|done]. cbn in Hl.
    unfold ves_icall_System_Threading_Thread_CurrentThread_internal. run.
    rewrite Hl. cbn. apply Z.eqb_neq in Hn. by rewrite Hn, Hh.
  - intros Hnone.
    unfold ves_icall_System_Threading_Thread_CurrentThread_internal. run.
    destruct t as [t|]; [|done]. cbn in Hnone.
    destruct (t !! g_int (os_self o)) as [thread|] eqn:Hl; [|done].
    by rewrite (Hnone thread eq_refl).
Qed.

(** X3.  After a successful [Start_internal this start], the new worker
    asking for its current thread gets [this] back. *)
Theorem Start_then_CurrentThread w this start :
  os_method_ptr (os w) start ≠ NULL → (os_create (os w)).1 = 0 →
  os_malloc (os w) ≠ NULL →
  ∃ w',
    ves_icall_System_Threading_Thread_Start_internal this start w
      = Returned (os_create (os w)).2 w' ∧
    ves_icall_System_Threading_Thread_CurrentThread_internal
      (with_self (os_create (os w)).2 w')
    = Returned this (with_self (os_create (os w)).2 w').
Proof.
  destruct w as [h t m sp l s o]. cbn [os]. intros Hf Hc Hp.
  eexists. rewrite Start_ok by done. split; [reflexivity|].
  unfold ves_icall_System_Threading_Thread_CurrentThread_internal, with_self.
  run. rewrite lookup_insert_eq. cbn.
  apply Z.eqb_neq in Hp. by rewrite Hp, lookup_insert_eq.
Qed.

(** ** Starting, in general *)

(** X7.  [Start_internal], given a fresh block by the allocator, keeps
    the table well formed, whether it succeeds or fails. *)
Theorem Start_keeps_registry_wf w this start r w' :
  registry_wf w → heap w !! os_malloc (os w) = None →
  ves_icall_System_Threading_Thread_Start_internal this start w
    = Returned r w' →
  registry_wf w'.
Proof.
  intros Hwf Hfresh.
  destruct w as [h t m sp l s o]. cbn [heap os] in *.
  destruct (decide (os_method_ptr o start = NULL)) as [Hf|Hf].
  { unfold ves_icall_System_Threading_Thread_Start_internal. run.
    rewrite Hf. cbn. intros [= _ <-]. exact Hwf. }
  destruct (decide ((os_create o).1 = 0)) as [Hc|Hc].
  - rewrite Start_ok by done. intros [= _ <-].
    intros t' k v [= <-] Hk. cbn [heap].
    destruct (decide (k = g_int (os_create o).2)) as [->|Hne].
    + rewrite lookup_insert_eq in Hk. injection Hk as <-.
      rewrite lookup_insert_eq. eauto.
    + rewrite lookup_insert_ne in Hk by done.
      destruct t as [t|]; cbn in Hk; [|by rewrite lookup_empty in Hk].
      destruct (Hwf t k v eq_refl Hk) as (ti&Hh&Hid). cbn [heap] in Hh.
      exists ti. split; [|done]. rewrite lookup_insert_ne; [done|].
      intros <-. congruence.
  - rewrite Start_failed by done. intros [= _ <-]. exact Hwf.
Qed.

(** X8.  [Start_internal], given a fresh block by the allocator, leaves
    every handle but the new one as it was, and the lookup of every
    identity that differs from the returned one in its low 32 bits
    finds what it found before, whether the call succeeds or fails; it
    consumes no return of a wait. *)
Theorem Start_frame w this start r w' :
  heap w !! os_malloc (os w) = None →
  ves_icall_System_Threading_Thread_Start_internal this start w
    = Returned r w' →
  (∀ k, g_int k ≠ g_int r → handle_of w' k = handle_of w k) ∧
  (∀ p, p ≠ os_malloc (os w) → heap w' !! p = heap w !! p) ∧
  wakes w' = wakes w ∧ main_thread w' = main_thread w ∧ os w' = os w.
Proof.
  intros Hfresh. destruct w as [h t m sp l s o]. cbn [heap os] in *.
  destruct (decide (os_method_ptr o start = NULL)) as [Hf|Hf].
  { unfold ves_icall_System_Threading_Thread_Start_internal. run.
    rewrite Hf. cbn. by intros [= _ <-]. }
  destruct (decide ((os_create o).1 = 0)) as [Hc|Hc].
  - rewrite Start_ok by done. intros [= <- <-]. split_and!; try done.
    + intros k Hk. unfold handle_of. cbn.
      rewrite lookup_insert_ne by done. by destruct t.
    + intros p Hp. cbn. by rewrite lookup_insert_ne.
  - rewrite Start_failed by done. by intros [= _ <-].
Qed.

(** X9.  When [pthread_create] hands out an identity that is still
    registered, [g_hash_table_insert] replaces the entry: the identity
    now leads to the new handle, the old handle stays allocated, and no
    identity leads to it any more, so it can be neither joined nor freed
    through the table. *)
Theorem Start_overwrites w this start old ti_old :
  registry_wf w →
  registered w (os_create (os w)).2 old ti_old →
  os_method_ptr (os w) start ≠ NULL → (os_create (os w)).1 = 0 →
  heap w !! os_malloc (os w) = None →
  ∃ w',
    ves_icall_System_Threading_Thread_Start_internal this start w
      = Returned (os_create (os w)).2 w' ∧
    handle_of w' (os_create (os w)).2 = Some (os_malloc (os w)) ∧
    heap w' !! old = Some ti_old ∧
    ∀ k, handle_of w' k ≠ Some old.
Proof.
  intros Hwf (t&Ht&Hl&Hn&Hh&Hid) Hf Hc Hfresh.
  destruct w as [h t' m sp l s o]. cbn [heap os threads] in *. subst t'.
  assert (old ≠ os_malloc o) as Hne by (intros ->; congruence).
  eexists. rewrite Start_ok by done. split_and!; [reflexivity| | |].
  - unfold handle_of. cbn. apply lookup_insert_eq.
  - cbn. by rewrite lookup_insert_ne.
  - intros k. unfold handle_of. cbn.
    destruct (decide (g_int k = g_int (os_create o).2)) as [->|Hk].
    + rewrite lookup_insert_eq. congruence.
    + rewrite lookup_insert_ne by done. intros Hk'.
      destruct (Hwf t (g_int k) old eq_refl Hk') as (ti&Hh'&Hid').
      cbn in Hh'. congruence.
Qed.

(** X10.  Starting a worker and joining it after its exit gives back the
    handles and the table the program had before the start, the table
    existing and holding no key that agrees with the new identity in its
    low 32 bits: what [g_hash_table_insert] and [g_new0] added,
    [delete_thread] removes. *)
Theorem Start_then_Join_restores w this start t :
  threads w = Some t → t !! g_int (os_create (os w)).2 = None →
  heap w !! os_malloc (os w) = None → os_malloc (os w) ≠ NULL →
  os_method_ptr (os w) start ≠ NULL → (os_create (os w)).1 = 0 →
  os_self (os w) ≠ (os_create (os w)).2 →
  ∃ w1,
    ves_icall_System_Threading_Thread_Start_internal this start w
      = Returned (os_create (os w)).2 w1 ∧
    ∀ st this' ms',
      ∃ w2,
        ves_icall_System_Threading_Thread_Join_internal this' ms'
          (os_create (os w)).2 (worker_exit (os_malloc (os w)) st w1)
          = Returned true w2 ∧
        heap w2 = heap w ∧ threads w2 = threads w ∧ wakes w2 = wakes w.
Proof.
  destruct w as [h t' m sp l s o]. cbn [heap os threads wakes].
  intros -> Hnew Hfresh Hp Hf Hc Hself.
  eexists. rewrite Start_ok by done. split; [reflexivity|].
  intros st this' ms'.
  set (ti := set_field Fobject this
               (created (os_create o).2 (os_method_ptr o start) NULL)).
  edestruct (Join_exited
               (worker_exit (os_malloc o) st
                  (mkWorld (<[os_malloc o := ti]> h)
                     (Some (<[g_int (os_create o).2 := os_malloc o]> t)) m sp
                     (l ++ create_log (os_malloc o) (os_method_ptr o start) NULL
                        ++ [EvDetach (os_create o).2;
                            EvWrite (os_malloc o) Fobject this]) s o))
               this' ms' (os_create o).2 (os_malloc o) (announce st ti))
    as (w2&Hj&Ht2&Hh2&Hw2&_).
  - eexists. cbn. split_and!; [reflexivity|apply lookup_insert_eq|done| |done].
    by rewrite lookup_alter_eq, lookup_insert_eq.
  - done.
  - apply announce_grows.
  - exists w2. split_and!; [exact Hj| | |done].
    + rewrite Hh2. cbn. apply map_eq. intros p.
      destruct (decide (p = os_malloc o)) as [->|Hne].
      * by rewrite lookup_delete_eq.
      * by rewrite lookup_delete_ne, lookup_alter_ne, lookup_insert_ne.
    + rewrite Ht2. cbn. by rewrite delete_insert_id.
Qed.

(** ** The remaining join paths and the conversions of sleep *)

(** X11.  A timed join ([ms <> 0]) during which the worker exits.  When
    the wait that carries the exit returns 0 the join returns [TRUE],
    removes the entry and frees the handle.  When that wait returns
    another code, [ETIMEDOUT] for one, the join returns [FALSE] and keeps
    the entry, although [exiting] is set by then; a retry returns [TRUE]
    without a wait.  Either way every turn of the loop waits for the
    same absolute deadline, computed once before the loop: wake-ups that
    find the worker running do not push it back. *)
Theorem timed_join_when_worker_exits w this ms tid thread ti pre wk rest :
  registered w tid thread ti → os_self (os w) ≠ tid → exiting ti = false →
  ms ≠ 0 →
  wakes w = pre ++ wk :: rest → Forall (quiet thread) pre →
  thread ∈ (wk_exits wk).*1 →
  (wk_ret wk = 0 →
   ∃ w',
     ves_icall_System_Threading_Thread_Join_internal this ms tid w
       = Returned true w' ∧
     log w' = log w ++ EvLock thread ::
                replicate (S (length pre))
                  (EvCondTimedWait thread (join_deadline (os_time (os w)) ms))
                ++ [EvUnlock thread; EvFree thread] ∧
     wakes w' = rest ∧
     threads w' = delete (g_int tid) <$> threads w ∧
     heap w' !! thread = None) ∧
  (wk_ret wk ≠ 0 →
   ∃ w' ti',
     ves_icall_System_Threading_Thread_Join_internal this ms tid w
       = Returned false w' ∧
     log w' = log w ++ EvLock thread ::
                replicate (S (length pre))
                  (EvCondTimedWait thread (join_deadline (os_time (os w)) ms))
                ++ EvUnlock thread ::
                (if wk_ret wk =? ETIMEDOUT then []
                 else [EvWarning "Timed join error: %s"]) ∧
     wakes w' = rest ∧ threads w' = threads w ∧
     registered w' tid thread ti' ∧ exiting ti' = true ∧
     ∀ this' ms',
       ∃ w2,
         ves_icall_System_Threading_Thread_Join_internal this' ms' tid w'
           = Returned true w2 ∧
         wakes w2 = rest ∧
         threads w2 = delete (g_int tid) <$> threads w ∧
         heap w2 !! thread = None).
Proof.
  intros Hreg Hself He Hms Hs Hq Hin.
  rewrite (Join_found _ _ _ _ _ _ Hreg Hself).
  apply Z.eqb_neq in Hms. rewrite Hms.
  destruct Hreg as (t&Ht&Hl&Hn&Hh&Hid).
  destruct w as [h t' m sp l s o]. cbn in Ht, Hh, Hs, Hself |- *. subst t' s.
  cbv [mbind M_bind time]. cbn [os]. cbv zeta.
  change (Some (mkTimespec _ _)) with (Some (join_deadline (os_time o) ms)).
  set (timeout := Some (join_deadline _ _)).
  destruct (timed_join_last pre wk rest h (Some t) m sp l o thread timeout false ti)
    as (ti'&Hti'&Hg&Hex&Hjoin); [done..|by right|].
  rewrite Hjoin. cbn [fst]. split.
  - intros Hret. rewrite Hret. cbn [Z.eqb].
    erewrite delete_thread_found by done. cbv [mret M_ret].
    eexists. split; [reflexivity|]. cbn.
    rewrite (grows_id _ _ Hg), Hid.
    rewrite <- !app_assoc. cbn. rewrite <- !app_assoc. cbn.
    by rewrite lookup_delete_eq.
  - intros Hret. apply Z.eqb_neq in Hret. rewrite Hret.
    assert (Hreg1 : ∀ l', registered
              (mkWorld (apply_exits (wk_exits wk) (apply_wakes pre h))
                 (Some t) m sp l' rest o) tid thread ti').
    { intros l'. exists t. split_and!; try done.
      by rewrite (grows_id _ _ Hg). }
    assert (Hretry : ∀ l' this' ms', ∃ w2,
              ves_icall_System_Threading_Thread_Join_internal this' ms' tid
                (mkWorld (apply_exits (wk_exits wk) (apply_wakes pre h))
                   (Some t) m sp l' rest o) = Returned true w2 ∧
              wakes w2 = rest ∧ threads w2 = Some (delete (g_int tid) t) ∧
              heap w2 !! thread = None).
    { intros l' this' ms'.
      destruct (Join_exited _ this' ms' tid thread ti' (Hreg1 l') Hself
                  (Hex Hin)) as (w2&Hj&Ht2&Hh2&Hw2&_).
      exists w2. split_and!; try done. rewrite Hh2. apply lookup_delete_eq. }
    destruct (wk_ret wk =? ETIMEDOUT) eqn:Eto; cbv [negb g_warning emit mret
      M_ret mbind M_bind with_log heap threads main_thread specific log wakes
      os]; eexists _, ti'; (split; [reflexivity|]); cbn [threads wakes log];
      split_and!; try done; try (by apply Hex);
      rewrite <- !app_assoc; cbn; by rewrite <- ?app_assoc.
Qed.

(** X12.  A join with [ms = 0] whose wait returns a code other than 0
    returns [FALSE] after the warning "Join error", whatever the code
    ([ETIMEDOUT] included), and keeps the identity registered to its
    handle; the handle is unchanged unless the worker exited during
    that very wait. *)
Theorem untimed_join_failure w this tid thread ti pre wk rest :
  registered w tid thread ti → os_self (os w) ≠ tid → exiting ti = false →
  wakes w = pre ++ wk :: rest → Forall (quiet thread) pre →
  wk_ret wk ≠ 0 →
  ∃ w' ti',
    ves_icall_System_Threading_Thread_Join_internal this 0 tid w
      = Returned false w' ∧
    log w' = log w ++ EvLock thread ::
               replicate (S (length pre)) (EvCondWait thread)
               ++ [EvUnlock thread; EvWarning "Join error: %s"] ∧
    wakes w' = rest ∧ threads w' = threads w ∧
    registered w' tid thread ti' ∧ grows ti ti' ∧
    (thread ∉ (wk_exits wk).*1 → ti' = ti).
Proof.
  intros Hreg Hself He Hs Hq Hret.
  rewrite (Join_found _ _ _ _ _ _ Hreg Hself). cbn [Z.eqb].
  destruct Hreg as (t&Ht&Hl&Hn&Hh&Hid).
  destruct w as [h t' m sp l s o]. cbn in Ht, Hh, Hs, Hself |- *. subst t' s.
  destruct (timed_join_last pre wk rest h (Some t) m sp l o thread None false ti)
    as (ti'&Hti'&Hg&_&Hjoin); [done..|by left|].
  cbv [mbind M_bind]. rewrite Hjoin. cbn [fst].
  apply Z.eqb_neq in Hret. rewrite Hret. run.
  eexists _, ti'. split; [reflexivity|]. cbn. split_and!; try done.
  - rewrite <- !app_assoc. cbn. by rewrite <- !app_assoc.
  - exists t. split_and!; try done. by rewrite (grows_id _ _ Hg).
  - intros Hnin.
    rewrite apply_exits_lookup_ne, apply_wakes_quiet, Hh in Hti' by done.
    congruence.
Qed.

Lemma to_gint32_id z : - 2 ^ 31 ≤ z < 2 ^ 31 → to_gint32 z = z.
Proof. intros Hz. unfold to_gint32. rewrite Z.mod_small; lia. Qed.

(** X13.  [Sleep_internal] always returns, touches neither handles nor
    table, and calls [nanosleep] once.  For [0 <= ms] the request is a
    valid [timespec]: seconds not negative and [tv_nsec] between 0 and
    999000.  For a negative [ms] neither field is positive, and
    [tv_nsec] is negative unless [ms] is a whole number of seconds. *)
Theorem sleep_request_range w ms :
  ∃ w' r req,
    ves_icall_System_Threading_Thread_Sleep_internal ms w = Returned r w' ∧
    log w' = log w ++ [EvNanosleep req] ∧
    heap w' = heap w ∧ threads w' = threads w ∧ wakes w' = wakes w ∧
    (0 ≤ ms → 0 ≤ tv_sec req ∧ 0 ≤ tv_nsec req ≤ 999000) ∧
    (ms < 0 → tv_sec req ≤ 0 ∧ -999000 ≤ tv_nsec req ≤ 0 ∧
              (Z.rem ms 1000 ≠ 0 → tv_nsec req < 0)).
Proof.
  destruct w as [h t m sp l s o].
  unfold ves_icall_System_Threading_Thread_Sleep_internal. run.
  cbn [div quot rem].
  assert (Hpos : 0 ≤ ms → 0 ≤ ms ÷ 1000 ∧ 0 ≤ ms `rem` 1000 * 1000 ≤ 999000).
  { intros Hms. pose proof (Z.quot_pos ms 1000 Hms).
    pose proof (Z.rem_bound_pos ms 1000 Hms). lia. }
  assert (Hneg : ms < 0 → ms ÷ 1000 ≤ 0 ∧ -999000 ≤ ms `rem` 1000 * 1000 ≤ 0 ∧
                          (Z.rem ms 1000 ≠ 0 → ms `rem` 1000 * 1000 < 0)).
  { intros Hms. pose proof (Z.rem_bound_pos_neg ms 1000).
    pose proof (Z.quot_rem' ms 1000). lia. }
  destruct (_ <? 0); eexists _, _, _; (split; [reflexivity|]);
    cbn [heap threads wakes log tv_sec tv_nsec]; by split_and!.
Qed.

(** X14.  The two conversions of [Sleep_internal] undo each other: when
    [nanosleep] is interrupted with the whole request left, the call
    returns [ms] itself, for every [ms] from 0 up to the largest
    [gint32]. *)
Theorem sleep_interrupted_at_once w ms :
  0 ≤ ms < 2 ^ 31 → (os_nanosleep (os w)).1 < 0 →
  (os_nanosleep (os w)).2
    = {| tv_sec := Z.quot ms 1000; tv_nsec := Z.rem ms 1000 * 1000 |} →
  ∃ w',
    ves_icall_System_Threading_Thread_Sleep_internal ms w = Returned ms w'.
Proof.
  intros Hms Hret Hrem.
  destruct (sleep_request w ms) as (w'&r&Hs&_&Hr).
  exists w'. rewrite Hs. f_equal. rewrite Hr.
  apply Z.ltb_lt in Hret. rewrite Hret, Hrem. cbn [tv_sec tv_nsec].
  rewrite Z.quot_mul by lia.
  pose proof (Z.quot_rem' ms 1000).
  rewrite to_gint32_id; lia.
Qed.

(** ** Exit and shutdown at the edges *)

(** X15.  [join_all_threads] drops the result of [timed_thread_join].
    So when the table holds one worker, still running, and the wait
    returns a code other than 0, [mono_thread_cleanup] returns all the
    same, having freed the handle; when that worker later reaches
    [timed_thread_exit] it writes into the freed block. *)
Theorem cleanup_frees_running_worker w k v ti wk rest :
  threads w = Some {[k := v]} → heap w !! v = Some ti → exiting ti = false →
  wakes w = wk :: rest → wk_ret wk ≠ 0 → v ∉ (wk_exits wk).*1 → v ≠ NULL →
  ∃ w',
    mono_thread_cleanup w = Returned tt w' ∧
    threads w' = None ∧ heap w' !! v = None ∧ wakes w' = rest ∧
    log w' = log w ++ [EvLock v; EvCondWait v; EvUnlock v; EvFree v] ∧
    ∀ st, timed_thread_exit st (with_specific v w') = Aborted.
Proof.
  destruct w as [h t m sp l s o]. cbn [heap threads wakes log].
  intros -> Hh He -> Hret Hnin Hv.
  unfold mono_thread_cleanup, g_hash_table_foreach, g_hash_table_foreach_remove.
  cbv [mbind M_bind get_world threads]. rewrite map_to_list_singleton.
  cbn [foreach]. unfold join_all_threads. cbv [mbind M_bind].
  destruct (timed_join_last [] wk rest h (Some {[k := v]}) m sp l o v None false ti)
    as (ti'&Hti'&_&_&Hjoin); [done..|by left|].
  cbn [app] in Hjoin. rewrite Hjoin. cbv [mret M_ret threads].
  rewrite map_to_list_singleton. cbn [foreach_remove].
  unfold free_all_threadinfo. run. cbn [apply_wakes foldl] in Hti' |- *.
  rewrite Hti'. cbn.
  eexists. split; [reflexivity|]. cbn. split_and!; try done.
  - apply lookup_delete_eq.
  - by rewrite <- !app_assoc.
  - intros st. unfold timed_thread_exit. run.
    apply Z.eqb_neq in Hv. rewrite Hv. by rewrite lookup_delete_eq.
Qed.

(** X16.  [timed_thread_exit] never returns to its caller and never
    blocks.  It leaves the table and every handle other than the one in
    the caller's thread-specific slot alone; with an empty slot it does
    nothing but [pthread_exit], taking no lock; with a slot holding an
    allocated handle that handle gets the status and [exiting]. *)
Theorem timed_thread_exit_frame w st :
  match timed_thread_exit st w with
  | Exited w' =>
      threads w' = threads w ∧ wakes w' = wakes w ∧
      (∀ p, p ≠ specific w → heap w' !! p = heap w !! p) ∧
      (specific w = NULL →
       heap w' = heap w ∧ log w' = log w ++ [EvPthreadExit]) ∧
      (specific w ≠ NULL →
       ∃ ti, heap w !! specific w = Some ti ∧
             heap w' !! specific w = Some (announce st ti))
  | Aborted => specific w ≠ NULL ∧ heap w !! specific w = None
  | Returned _ _ | Blocked _ => False
  end.
Proof.
  destruct w as [h t m sp l s o]. cbn [heap threads wakes log specific].
  unfold timed_thread_exit. run.
  destruct (sp =? NULL) eqn:Hsp.
  - apply Z.eqb_eq in Hsp. split_and!; try done.
  - apply Z.eqb_neq in Hsp. destruct (h !! sp) as [ti|] eqn:Hh; [|done].
    cbn. rewrite lookup_insert_eq. cbn. split_and!; try done.
    + intros p Hp. rewrite insert_insert_eq. by rewrite lookup_insert_ne.
    + intros _. exists ti. split; [done|].
      by rewrite insert_insert_eq, lookup_insert_eq.
Qed.

Lemma cleanup_returned_threads w w' :
  mono_thread_cleanup w = Returned tt w' → threads w' = None.
Proof.
  unfold mono_thread_cleanup. cbv [mbind M_bind get_world].
  destruct (threads w) eqn:Ht.
  - destruct (g_hash_table_foreach join_all_threads w); try done.
    destruct (g_hash_table_foreach_remove free_all_threadinfo w0); try done.
    cbv [set_threads]. by intros [= <-].
  - cbv [mret M_ret]. by intros [= <-].
Qed.

(** X17.  Whenever [mono_thread_cleanup] returns, [threads] is [NULL]:
    from then on every join, of any identity, returns [FALSE] after a
    warning, and every thread asking for its current thread gets
    [main_thread]. *)
Theorem after_cleanup_nobody_registered w w' :
  mono_thread_cleanup w = Returned tt w' →
  threads w' = None ∧
  (∀ this ms tid,
     ∃ msg,
       ves_icall_System_Threading_Thread_Join_internal this ms tid w'
       = Returned false (with_log (log w' ++ [EvWarning msg]) w')) ∧
  ves_icall_System_Threading_Thread_CurrentThread_internal w'
  = Returned (main_thread w') w'.
Proof.
  intros Hc. apply cleanup_returned_threads in Hc.
  destruct w' as [h t m sp l s o]. cbn in Hc. subst t.
  split_and!; [done| |].
  - intros this ms tid.
    unfold ves_icall_System_Threading_Thread_Join_internal. run.
    destruct (os_self o =? tid); eexists; reflexivity.
  - unfold ves_icall_System_Threading_Thread_CurrentThread_internal. by run.
Qed.

(** X18.  Whatever a call of [Join_internal] on one identity returns, in
    a well-formed table every registered identity that differs from it
    in its low 32 bits stays registered to the same handle, which other
    threads may only have grown. *)
Theorem Join_keeps_others w this ms tid k v tik r w' :
  registry_wf w → g_int k ≠ g_int tid → registered w k v tik →
  ves_icall_System_Threading_Thread_Join_internal this ms tid w
    = Returned r w' →
  ∃ tik', registered w' k v tik' ∧ grows tik tik'.
Proof.
  intros Hwf Hk (t&Ht&Hkl&Hvn&Hhv&Hidv).
  destruct w as [h t' m sp l s o]. cbn [heap threads] in *. subst t'.
  assert (Hsame : ∀ l', ∃ tik',
            registered (mkWorld h (Some t) m sp l' s o) k v tik' ∧ grows tik tik').
  { intros l'. exists tik. split; [|apply grows_refl]. exists t. by split_and!. }
  destruct (decide (os_self o = tid)) as [Hself|Hself].
  { unfold ves_icall_System_Threading_Thread_Join_internal. run.
    apply Z.eqb_eq in Hself. rewrite Hself. intros [= _ <-]. apply Hsame. }
  destruct (t !! g_int tid) as [thread|] eqn:Hl.
  2:{ unfold ves_icall_System_Threading_Thread_Join_internal. run.
      apply Z.eqb_neq in Hself. rewrite Hself, Hl. cbn.
      intros [= _ <-]. apply Hsame. }
  destruct (decide (thread = NULL)) as [->|Hn].
  { unfold ves_icall_System_Threading_Thread_Join_internal. run.
    apply Z.eqb_neq in Hself. rewrite Hself, Hl. cbn.
    intros [= _ <-]. apply Hsame. }
  pose proof (proj1 (registry_wf_fields h t m sp l s o) Hwf) as Hf.
  destruct (Hf (g_int tid) thread Hl) as (ti&Hh&Hid).
  assert (Hgrown : ∀ n, ∃ tik', apply_wakes (take n s) h !! v = Some tik' ∧
                                 grows tik tik').
  { intros n. pose proof (apply_wakes_grows (take n s) h v) as Hg.
    rewrite Hhv in Hg. destruct Hg as (tik'&?&?). eauto. }
  destruct (Join_cases h t m sp l s o this ms tid thread ti)
    as [(n&ti'&d&->&Hlen&Hti'&He)|[(n&ti'&d&wk&->&Hlen&Hti'&Hin&Hwk)|
        (ti'&d&->&Hti'&He)]]; try done.
  - intros [= _ <-]. destruct (Hgrown n) as (tik'&Hv'&Hg).
    exists tik'. split; [|done]. exists (delete (g_int tid) t).
    split_and!; try done; cbn.
    + by rewrite lookup_delete_ne.
    + rewrite lookup_delete_ne; [done|]. intros <-.
      rewrite Hhv in Hh. injection Hh as <-. by rewrite Hidv in Hid.
    + by rewrite (grows_id _ _ Hg).
  - intros [= _ <-]. destruct (Hgrown n) as (tik'&Hv'&Hg).
    exists tik'. split; [|done]. exists t.
    split_and!; try done. by rewrite (grows_id _ _ Hg).
Qed.

(** X19.  No handle is joined twice: once [Join_internal] has returned
    [TRUE] for an identity, every further join of that identity returns
    [FALSE] with the warning "Can't find thread id" and changes
    nothing. *)
Theorem Join_twice w this ms tid thread ti w' :
  registered w tid thread ti → os_self (os w) ≠ tid →
  ves_icall_System_Threading_Thread_Join_internal this ms tid w
    = Returned true w' →
  ∀ this' ms',
    ves_icall_System_Threading_Thread_Join_internal this' ms' tid w'
    = Returned false
        (with_log (log w' ++ [EvWarning "Can't find thread id %ld"]) w').
Proof.
  intros (t&Ht&Hl&Hn&Hh&Hid) Hself.
  destruct w as [h t' m sp l s o]. cbn [heap threads wakes os] in *. subst t'.
  destruct (Join_cases h t m sp l s o this ms tid thread ti Hl Hn Hh
              (f_equal g_int Hid) Hself)
    as [(n&ti'&d&->&Hlen&Hti'&He)|[(n&ti'&d&wk&->&Hlen&Hti'&Hin&Hwk)|
        (ti'&d&->&Hti'&He)]]; try done.
  intros [= <-] this' ms'. apply Join_not_found; [done|].
  intros thread'. unfold handle_of. cbn. by rewrite lookup_delete_eq.
Qed.

(** X20.  [timed_thread_create], given a fresh block, returns the very
    code [pthread_create] returned.  On 0 it hands out the new handle,
    which holds the identity, the start routine and the argument it was
    given, with [status] and [exiting] clear; on any other code it hands
    out nothing and the handles are what they were.  The table is not
    touched either way. *)
Theorem timed_thread_create_result w attr f a :
  heap w !! os_malloc (os w) = None →
  ∃ w',
    timed_thread_create attr f a w
    = Returned ((os_create (os w)).1,
                if decide ((os_create (os w)).1 = 0)
                then Some (os_malloc (os w)) else None) w' ∧
    threads w' = threads w ∧ wakes w' = wakes w ∧
    heap w' = if decide ((os_create (os w)).1 = 0)
              then <[os_malloc (os w) := created (os_create (os w)).2 f a]>
                     (heap w)
              else heap w.
Proof.
  destruct w as [h t m sp l s o]. cbn [heap os threads wakes]. intros Hfresh.
  destruct (decide ((os_create o).1 = 0)) as [Hc|Hc].
  - eexists. rewrite timed_thread_create_ok by done. by rewrite Hc.
  - eexists. by rewrite timed_thread_create_failed.
Qed.

(** X21.  The table compares identities through [g_int_equal], by their
    low 32 bits.  So a join on an identity other than the caller's that
    agrees in its low 32 bits with a registered one finds the handle of
    that worker: once the worker has exited the join returns [TRUE]
    without a wait, and the entry of the registered identity is gone and
    its handle freed. *)
Theorem Join_aliased_identity w this ms tid tid' thread ti :
  registered w tid thread ti → g_int tid' = g_int tid →
  os_self (os w) ≠ tid' → exiting ti = true →
  ∃ w',
    ves_icall_System_Threading_Thread_Join_internal this ms tid' w
      = Returned true w' ∧
    threads w' = delete (g_int tid) <$> threads w ∧
    handle_of w' tid = None ∧
    heap w' = delete thread (heap w) ∧
    wakes w' = wakes w ∧
    log w' = log w ++ [EvLock thread; EvUnlock thread; EvFree thread].
Proof.
  intros (t&Ht&Hl&Hn&Hh&Hid) Halias Hself He.
  destruct w as [h t' m sp l s o]. cbn in Ht, Hh, Hself |- *. subst t'.
  rewrite <- Halias in Hl.
  rewrite (Join_found_at h t m sp l s o this ms tid' thread Hl Hn Hself).
  eexists.
  destruct (ms =? 0); cbv [mbind M_bind time]; cbn [os];
    (erewrite timed_join_exited by done); cbn [fst Z.eqb];
    cbv [with_log heap threads main_thread specific log wakes os];
    (erewrite delete_thread_found by done); cbv [mret M_ret];
    (split; [done|]); unfold handle_of; cbn; rewrite Hid, <- !app_assoc;
    rewrite lookup_delete_eq; done.
Qed.

(** ** The further statements at work *)

Lemma w_running_wf s : registry_wf (w_running s).
Proof.
  intros t k v [= <-] Hk. apply lookup_singleton_Some in Hk as [<- <-].
  exists handle_demo. split; reflexivity.
Defined.

Lemma w_two_wf s : registry_wf (w_two s).
Proof.
  intros t k v [= <-] Hk.
  apply lookup_insert_Some in Hk as [[<- <-]|[_ Hk]].
  - exists handle_demo. split; reflexivity.
  - apply lookup_singleton_Some in Hk as [<- <-].
    exists handle_other. split; reflexivity.
Defined.

Lemma Join_unknown_identity_witness :
  ves_icall_System_Threading_Thread_Join_internal 5 0 999 (w_running [])
  = Returned false
      (with_log (log (w_running [])
                 ++ [EvWarning "Can't find thread id %ld"]) (w_running [])).
Proof.
  refine (Join_unknown_identity (w_running []) 5 0 999 _ _).
  - discriminate.
  - intros thread Hl. vm_compute in Hl. discriminate.
Defined.

Lemma CurrentThread_owner_witness :
  ves_icall_System_Threading_Thread_CurrentThread_internal
    (with_self 2051 (w_running []))
  = Returned 5 (with_self 2051 (w_running [])).
Proof.
  refine (proj1 (CurrentThread_owner (with_self 2051 (w_running [])))
            4096 handle_demo _ _ _).
  - reflexivity.
  - discriminate.
  - reflexivity.
Defined.

Lemma Start_then_CurrentThread_witness :
  ∃ w',
    ves_icall_System_Threading_Thread_Start_internal 5 77 w_idle
      = Returned 2051 w' ∧
    ves_icall_System_Threading_Thread_CurrentThread_internal
      (with_self 2051 w')
    = Returned 5 (with_self 2051 w').
Proof.
  refine (Start_then_CurrentThread w_idle 5 77 _ _ _).
  - discriminate.
  - reflexivity.
  - discriminate.
Defined.

Lemma timed_join_sound_witness :
  match timed_thread_join 4096 None true w_exits_later with
  | Returned (r, st) w' =>
      ∃ n ti',
        (n ≤ length (wakes w_exits_later))%nat ∧
        wakes w' = drop n (wakes w_exits_later) ∧
        heap w' = apply_wakes (take n (wakes w_exits_later))
                    (heap w_exits_later) ∧
        threads w' = threads w_exits_later ∧
        log w' = log w_exits_later
                 ++ EvLock 4096 :: replicate n (wait_event 4096 None)
                 ++ [EvUnlock 4096] ∧
        heap w' !! 4096 = Some ti' ∧
        (r = 0 → exiting ti' = true ∧
                 st = if true then Some (status ti') else None) ∧
        (r ≠ 0 → st = None ∧
                 ∃ wk, wk ∈ take n (wakes w_exits_later) ∧ wk_ret wk = r)
  | Blocked w' =>
      wakes w' = [] ∧ threads w' = threads w_exits_later ∧
      ∃ ti', heap w' !! 4096 = Some ti' ∧ exiting ti' = false
  | Exited _ | Aborted => False
  end.
Proof.
  refine (timed_join_sound w_exits_later 4096 None true _).
  exists handle_demo. reflexivity.
Defined.

Lemma Join_true_only_after_exit_witness :
  match ves_icall_System_Threading_Thread_Join_internal 5 1500 2051
          w_times_out
  with
  | Returned true w' =>
      ∃ n ti',
        (n ≤ length (wakes w_times_out))%nat ∧
        apply_wakes (take n (wakes w_times_out)) (heap w_times_out) !! 4096
        = Some ti' ∧
        exiting ti' = true ∧
        heap w' = delete 4096
                    (apply_wakes (take n (wakes w_times_out))
                       (heap w_times_out)) ∧
        threads w' = delete 2051 <$> threads w_times_out ∧
        wakes w' = drop n (wakes w_times_out)
  | Returned false w' =>
      ∃ n ti' wk,
        wk ∈ take n (wakes w_times_out) ∧
        wk_ret wk ≠ 0 ∧
        heap w' = apply_wakes (take n (wakes w_times_out))
                    (heap w_times_out) ∧
        threads w' = threads w_times_out ∧
        registered w' 2051 4096 ti' ∧ grows handle_demo ti' ∧
        wakes w' = drop n (wakes w_times_out)
  | Blocked w' =>
      wakes w' = [] ∧ threads w' = threads w_times_out ∧
      ∃ ti', registered w' 2051 4096 ti' ∧ grows handle_demo ti' ∧
             exiting ti' = false
  | Exited _ | Aborted => False
  end.
Proof.
  refine (Join_true_only_after_exit w_times_out 5 1500 2051 4096
            handle_demo _ _).
  - exists {[2051 := 4096]}. repeat split; try reflexivity. discriminate.
  - discriminate.
Defined.

Lemma Join_preserves_wf_witness :
  match ves_icall_System_Threading_Thread_Join_internal 5 0 2051
          (w_two [mkWake 0 [(4096, 42)]]) with
  | Returned _ w' => registry_wf w'
  | Blocked w' => registry_wf w'
  | Exited _ | Aborted => False
  end.
Proof.
  refine (Join_preserves_wf (w_two [mkWake 0 [(4096, 42)]]) 5 0 2051 _).
  apply w_two_wf.
Defined.

Lemma w_other_wf : registry_wf w_other.
Proof.
  intros t k v [= <-] Hk. apply lookup_singleton_Some in Hk as [<- <-].
  exists handle_other. split; reflexivity.
Defined.

Lemma Start_keeps_registry_wf_witness :
  ∃ w',
    ves_icall_System_Threading_Thread_Start_internal 5 77 w_other
      = Returned 2051 w' ∧
    registry_wf w'.
Proof.
  eexists. split; [vm_compute; reflexivity|].
  refine (Start_keeps_registry_wf w_other 5 77 2051 _ _ _ _).
  - apply w_other_wf.
  - reflexivity.
  - vm_compute. reflexivity.
Defined.

Lemma Start_frame_witness :
  ∃ w',
    ves_icall_System_Threading_Thread_Start_internal 5 77 w_other
      = Returned 2051 w' ∧
    (∀ k, g_int k ≠ g_int 2051 → handle_of w' k = handle_of w_other k) ∧
    (∀ p, p ≠ os_malloc (os w_other) → heap w' !! p = heap w_other !! p) ∧
    wakes w' = wakes w_other ∧ main_thread w' = main_thread w_other ∧
    os w' = os w_other.
Proof.
  eexists. split; [vm_compute; reflexivity|].
  refine (Start_frame w_other 5 77 2051 _ _ _).
  - reflexivity.
  - vm_compute. reflexivity.
Defined.

Lemma Start_overwrites_witness :
  ∃ w',
    ves_icall_System_Threading_Thread_Start_internal 5 77 w_reused
      = Returned 2051 w' ∧
    handle_of w' 2051 = Some 4096 ∧
    heap w' !! 8192 = Some handle_demo ∧
    ∀ k, handle_of w' k ≠ Some 8192.
Proof.
  refine (Start_overwrites w_reused 5 77 8192 handle_demo _ _ _ _ _).
  - intros t k v [= <-] Hk. apply lookup_singleton_Some in Hk as [<- <-].
    exists handle_demo. split; reflexivity.
  - exists {[2051 := 8192]}. repeat split; try reflexivity. discriminate.
  - discriminate.
  - reflexivity.
  - reflexivity.
Defined.

Lemma Start_then_Join_restores_witness :
  ∃ w1,
    ves_icall_System_Threading_Thread_Start_internal 5 77
      (with_threads (Some ∅) w_idle) = Returned 2051 w1 ∧
    ∀ st this' ms',
      ∃ w2,
        ves_icall_System_Threading_Thread_Join_internal this' ms' 2051
          (worker_exit 4096 st w1) = Returned true w2 ∧
        heap w2 = ∅ ∧ threads w2 = Some ∅ ∧ wakes w2 = [].
Proof.
  refine (Start_then_Join_restores (with_threads (Some ∅) w_idle) 5 77 ∅
            _ _ _ _ _ _ _).
  - reflexivity.
  - reflexivity.
  - reflexivity.
  - discriminate.
  - discriminate.
  - reflexivity.
  - discriminate.
Defined.

Lemma timed_join_when_worker_exits_witness :
  (∃ w',
     ves_icall_System_Threading_Thread_Join_internal 5 1500 2051
       (w_running [mkWake 0 []; mkWake 0 [(4096, 42)]]) = Returned true w' ∧
     log w' = [EvLock 4096;
               EvCondTimedWait 4096 (mkTimespec 101 500000);
               EvCondTimedWait 4096 (mkTimespec 101 500000);
               EvUnlock 4096; EvFree 4096] ∧
     wakes w' = [] ∧
     threads w' = Some ∅ ∧
     heap w' !! 4096 = None) ∧
  (∃ w' ti',
     ves_icall_System_Threading_Thread_Join_internal 5 1500 2051
       (w_running [mkWake ETIMEDOUT [(4096, 42)]]) = Returned false w' ∧
     log w' = [EvLock 4096;
               EvCondTimedWait 4096 (mkTimespec 101 500000);
               EvUnlock 4096] ∧
     wakes w' = [] ∧ threads w' = Some {[2051 := 4096]} ∧
     registered w' 2051 4096 ti' ∧ exiting ti' = true ∧
     ∀ this' ms',
       ∃ w2,
         ves_icall_System_Threading_Thread_Join_internal this' ms' 2051 w'
           = Returned true w2 ∧
         wakes w2 = [] ∧
         threads w2 = Some ∅ ∧
         heap w2 !! 4096 = None).
Proof.
  split.
  - refine (proj1 (timed_join_when_worker_exits
              (w_running [mkWake 0 []; mkWake 0 [(4096, 42)]])
              5 1500 2051 4096 handle_demo [mkWake 0 []]
              (mkWake 0 [(4096, 42)]) [] _ _ _ _ _ _ _) _).
    + exists {[2051 := 4096]}. repeat split; try reflexivity. discriminate.
    + discriminate.
    + reflexivity.
    + discriminate.
    + reflexivity.
    + repeat constructor. cbn. inversion 1.
    + cbn. left.
    + reflexivity.
  - refine (proj2 (timed_join_when_worker_exits
              (w_running [mkWake ETIMEDOUT [(4096, 42)]])
              5 1500 2051 4096 handle_demo []
              (mkWake ETIMEDOUT [(4096, 42)]) [] _ _ _ _ _ _ _) _).
    + exists {[2051 := 4096]}. repeat split; try reflexivity. discriminate.
    + discriminate.
    + reflexivity.
    + discriminate.
    + reflexivity.
    + constructor.
    + cbn. left.
    + discriminate.
Defined.

Lemma untimed_join_failure_witness :
  ∃ w' ti',
    ves_icall_System_Threading_Thread_Join_internal 5 0 2051
      (w_running [mkWake 22 []]) = Returned false w' ∧
    log w' = [EvLock 4096; EvCondWait 4096; EvUnlock 4096;
              EvWarning "Join error: %s"] ∧
    wakes w' = [] ∧ threads w' = Some {[2051 := 4096]} ∧
    registered w' 2051 4096 ti' ∧ grows handle_demo ti' ∧
    (4096 ∉ (wk_exits (mkWake 22 [])).*1 → ti' = handle_demo).
Proof.
  refine (untimed_join_failure (w_running [mkWake 22 []]) 5 2051 4096
            handle_demo [] (mkWake 22 []) [] _ _ _ _ _ _).
  - exists {[2051 := 4096]}. repeat split; try reflexivity. discriminate.
  - discriminate.
  - reflexivity.
  - reflexivity.
  - constructor.
  - discriminate.
Defined.

Lemma sleep_interrupted_at_once_witness :
  ∃ w',
    ves_icall_System_Threading_Thread_Sleep_internal 1500
      (w_sleep (-1, mkTimespec 1 500000)) = Returned 1500 w'.
Proof.
  refine (sleep_interrupted_at_once (w_sleep (-1, mkTimespec 1 500000)) 1500
            _ _ _).
  - split; [discriminate|reflexivity].
  - reflexivity.
  - reflexivity.
Defined.

Lemma cleanup_frees_running_worker_witness :
  ∃ w',
    mono_thread_cleanup (w_running [mkWake 22 []]) = Returned tt w' ∧
    threads w' = None ∧ heap w' !! 4096 = None ∧ wakes w' = [] ∧
    log w' = [EvLock 4096; EvCondWait 4096; EvUnlock 4096; EvFree 4096] ∧
    ∀ st, timed_thread_exit st (with_specific 4096 w') = Aborted.
Proof.
  refine (cleanup_frees_running_worker (w_running [mkWake 22 []]) 2051 4096
            handle_demo (mkWake 22 []) [] _ _ _ _ _ _ _).
  - reflexivity.
  - reflexivity.
  - reflexivity.
  - reflexivity.
  - discriminate.
  - cbn. inversion 1.
  - discriminate.
Defined.

Lemma after_cleanup_witness :
  ∃ w',
    mono_thread_cleanup (w_running [mkWake 0 [(4096, 42)]]) = Returned tt w' ∧
    threads w' = None ∧
    (∀ this ms tid,
       ∃ msg,
         ves_icall_System_Threading_Thread_Join_internal this ms tid w'
         = Returned false (with_log (log w' ++ [EvWarning msg]) w')) ∧
    ves_icall_System_Threading_Thread_CurrentThread_internal w'
    = Returned (main_thread w') w'.
Proof.
  eexists. split; [vm_compute; reflexivity|].
  refine (after_cleanup_nobody_registered
            (w_running [mkWake 0 [(4096, 42)]]) _ _).
  vm_compute. reflexivity.
Defined.

Lemma Join_keeps_others_witness :
  ∃ w',
    ves_icall_System_Threading_Thread_Join_internal 5 0 2051
      (w_two [mkWake 0 [(4096, 42)]]) = Returned true w' ∧
    ∃ tik', registered w' 3075 8192 tik' ∧ grows handle_other tik'.
Proof.
  eexists. split; [vm_compute; reflexivity|].
  refine (Join_keeps_others (w_two [mkWake 0 [(4096, 42)]]) 5 0 2051
            3075 8192 handle_other true _ _ _ _ _).
  - apply w_two_wf.
  - discriminate.
  - exists {[2051 := 4096; 3075 := 8192]}.
    repeat split; try reflexivity. discriminate.
  - vm_compute. reflexivity.
Defined.

Lemma Join_twice_witness :
  ∃ w',
    ves_icall_System_Threading_Thread_Join_internal 5 0 2051
      (w_running [mkWake 0 [(4096, 42)]]) = Returned true w' ∧
    ∀ this' ms',
      ves_icall_System_Threading_Thread_Join_internal this' ms' 2051 w'
      = Returned false
          (with_log (log w' ++ [EvWarning "Can't find thread id %ld"]) w').
Proof.
  eexists. split; [vm_compute; reflexivity|].
  refine (Join_twice (w_running [mkWake 0 [(4096, 42)]]) 5 0 2051 4096
            handle_demo _ _ _ _).
  - exists {[2051 := 4096]}. repeat split; try reflexivity. discriminate.
  - discriminate.
  - vm_compute. reflexivity.
Defined.

Lemma timed_thread_create_result_witness :
  ∃ w',
    timed_thread_create NULL 9000 7 w_idle
    = Returned ((os_create (os w_idle)).1,
                if decide ((os_create (os w_idle)).1 = 0)
                then Some (os_malloc (os w_idle)) else None) w' ∧
    threads w' = threads w_idle ∧ wakes w' = wakes w_idle ∧
    heap w' = if decide ((os_create (os w_idle)).1 = 0)
              then <[os_malloc (os w_idle) :=
                       created (os_create (os w_idle)).2 9000 7]> (heap w_idle)
              else heap w_idle.
Proof.
  refine (timed_thread_create_result w_idle NULL 9000 7 _).
  reflexivity.
Defined.

Lemma Join_aliased_identity_witness :
  ∃ w',
    ves_icall_System_Threading_Thread_Join_internal 5 0 (2051 + 2 ^ 32)
      (worker_exit 4096 42 (w_running [])) = Returned true w' ∧
    threads w' = Some ∅ ∧
    handle_of w' 2051 = None ∧
    heap w' = ∅ ∧
    wakes w' = [] ∧
    log w' = [EvLock 4096; EvUnlock 4096; EvFree 4096].
Proof.
  refine (Join_aliased_identity (worker_exit 4096 42 (w_running [])) 5 0 2051
            (2051 + 2 ^ 32) 4096 (announce 42 handle_demo) _ _ _ _).
  - exists {[2051 := 4096]}. repeat split; try reflexivity. discriminate.
  - reflexivity.
  - discriminate.
  - reflexivity.
Defined.
